(** * Jay Goga Milk: session, synchronisation and dashboard aggregation

    A shallow embedding of [src/context/AuthContext.tsx] (session manager
    and data synchronisation layer) and of the [Dashboard] component
    (daily aggregation), with the properties of the specification stated
    and settled against it.

    Conventions of the embedding.
    - A JavaScript [number] is an exact integer ([Z]) or [NaN]; rounding of
      binary floating point is outside the model.
    - A Firestore [Timestamp] is the integer it converts to under [-].
    - React state is a record; every [setX] is a record update.
    - A provider call that is awaited may reject; its outcome is an input
      of the function that awaits it. *)

From stdpp Require Import gmap strings list fin_maps sorting.
From Stdlib Require Import ZArith Lia Ascii.
From Stdlib Require OrderedTypeEx.

Local Open Scope string_scope.
Local Open Scope list_scope.
Local Open Scope Z_scope.

(** ** JavaScript values met by the arithmetic of the dashboard *)

Module Js.

Inductive number := Fin (z : Z) | NaN.

(** What a numeric field of a document can hold at run time. *)
Inductive value := Undefined | Null | Num (n : number).

Definition ToNumber (v : value) : number :=
  match v with
  | Undefined => NaN
  | Null => Fin 0
  | Num n => n
  end.

Definition ToBoolean (v : value) : bool :=
  match v with
  | Undefined | Null | Num NaN => false
  | Num (Fin z) => negb (z =? 0)
  end.

(** [a + b] on operands none of which is a string. *)
Definition add (a b : value) : value :=
  match ToNumber a, ToNumber b with
  | Fin x, Fin y => Num (Fin (x + y))
  | _, _ => Num NaN
  end.

(** [a - b]. *)
Definition sub (a b : value) : value :=
  match ToNumber a, ToNumber b with
  | Fin x, Fin y => Num (Fin (x - y))
  | _, _ => Num NaN
  end.

(** [a || b]. *)
Definition or (a b : value) : value := if ToBoolean a then a else b.

Definition int (z : Z) : value := Num (Fin z).

End Js.

(** ** Data model ([src/types]) *)

Inductive Unit_ := ml | L | gm | kg | piece.

Inductive Status := pending | delivered.

Module OrderItem.
Record t := {
  product_id : string;
  product_name : string;
  quantity : Z;
  unit : Unit_;
  price : Z;
  total : Z;
}.
End OrderItem.

(** The fields a document carries in its collection; the document id is
    the key of the collection and is joined to the fields by [WithId]. *)
Module Product.
Record t := {
  user_id : string;
  name : string;
  price : Z;
  quantity : Z;
  unit : Unit_;
  photo : option string;
  created_at : Z;
}.
End Product.

Module Customer.
Record t := {
  user_id : string;
  name : string;
  address : string;
  contact_number : string;
  created_at : Z;
}.
End Customer.

Module DailyOrder.
Record t := {
  user_id : string;
  customer_id : string;
  customer_name : string;
  date : string;
  items : list OrderItem.t;
  total_amount : Js.value;
  amount_paid : Js.value;
  status : Status;
  created_at : Z;
}.
End DailyOrder.

Module Profile.
Record t := {
  username : string;
  email : string;
  created_at : Z;
}.
End Profile.

(** [{ id: d.id, ...d.data() }] *)
Record WithId (D : Type) := { id : string; fields : D }.
Arguments id {D} _.
Arguments fields {D} _.

Module AppUser.
Record t := { id : string; email : string; username : string }.
End AppUser.

Module FirebaseUser.
Record t := { uid : string; email : option string; emailVerified : bool }.
End FirebaseUser.

(** ** [Array.prototype.sort] with a comparator

    The sort is stable: an element moves behind another only when the
    comparator is positive on the pair. *)

Module JsArray.

Fixpoint insert {A} (cmp : A → A → Z) (x : A) (l : list A) : list A :=
  match l with
  | [] => [x]
  | y :: l' => if 0 <? cmp x y then y :: insert cmp x l' else x :: y :: l'
  end.

Definition sort {A} (cmp : A → A → Z) (l : list A) : list A :=
  foldr (insert cmp) [] l.

End JsArray.

(** ** Object literals used as dictionaries *)

Module JsObject.

(** The property names an object literal inherits from
    [Object.prototype]; every one of them reads as a truthy value. *)
Definition prototype_keys : list string :=
  ["constructor"; "__defineGetter__"; "__defineSetter__"; "hasOwnProperty";
   "__lookupGetter__"; "__lookupSetter__"; "isPrototypeOf";
   "propertyIsEnumerable"; "toString"; "valueOf"; "__proto__";
   "toLocaleString"]%string.

Definition inherited (k : string) : bool := bool_decide (k ∈ prototype_keys).

(** Own properties, in the order of their creation. *)
Definition t (V : Type) := list (string * V).

Fixpoint get_own {V} (o : t V) (k : string) : option V :=
  match o with
  | [] => None
  | (k', v) :: o' => if decide (k' = k) then Some v else get_own o' k
  end.

(** [o[k] = v] on a name that is not an accessor of the prototype. *)
Fixpoint set {V} (o : t V) (k : string) (v : V) : t V :=
  match o with
  | [] => [(k, v)]
  | (k', v') :: o' =>
      if decide (k' = k) then (k', v) :: o' else (k', v') :: set o' k v
  end.

Definition digit (a : Ascii.ascii) : option N :=
  let n := Ascii.N_of_ascii a in
  if ((48 <=? n) && (n <=? 57))%N then Some (n - 48)%N else None.

Fixpoint digits (s : string) (acc : N) : option N :=
  match s with
  | EmptyString => Some acc
  | String a s' =>
      match digit a with
      | Some d => digits s' (10 * acc + d)%N
      | None => None
      end
  end.

(** A property name is an array index when it is the canonical decimal
    form of an integer below [2^32 - 1]. *)
Definition array_index (k : string) : option N :=
  match k with
  | EmptyString => None
  | String a k' =>
      if (Ascii.eqb a "0"%char && negb (String.eqb k' ""%string))%bool then None
      else match digits k 0 with
           | Some n => if (n <? 4294967295)%N then Some n else None
           | None => None
           end
  end.

Definition index_of {V} (e : string * V) : Z :=
  match array_index e.1 with Some n => Z.of_N n | None => 0 end.

(** [Object.entries(o)]: array indices in ascending order, then the
    other names in the order of their creation. *)
Definition entries {V} (o : t V) : list (string * V) :=
  JsArray.sort (λ a b, index_of a - index_of b)
               (filter (λ e, is_Some (array_index e.1)) o)
  ++ filter (λ e, ¬ is_Some (array_index e.1)) o.

End JsObject.

(** ** Dashboard: today's totals and product summary *)

Module Dashboard.

Definition Order := WithId DailyOrder.t.

(** [orders.filter(order => order.date === today)] *)
Definition todayOrders (today : string) (orders : list Order) : list Order :=
  filter (λ order, DailyOrder.date (fields order) = today) orders.

(** [todayOrders.reduce((sum, order) => sum + (order.amount_paid || 0), 0)] *)
Definition totalCollectionToday (today : string) (orders : list Order) : Js.value :=
  foldl (λ sum order,
           Js.add sum (Js.or (DailyOrder.amount_paid (fields order)) (Js.int 0)))
        (Js.int 0) (todayOrders today orders).

(** [todayOrders.reduce((sum, order) => sum + order.total_amount, 0)] *)
Definition totalAmountToday (today : string) (orders : list Order) : Js.value :=
  foldl (λ sum order, Js.add sum (DailyOrder.total_amount (fields order)))
        (Js.int 0) (todayOrders today orders).

(** [totalAmountToday - totalCollectionToday] *)
Definition totalPendingToday (today : string) (orders : list Order) : Js.value :=
  Js.sub (totalAmountToday today orders) (totalCollectionToday today orders).

(** The body of the inner [forEach]:
    [if (!summary[name]) summary[name] = { quantity: 0 };
     summary[name].quantity += item.quantity].
    On an inherited name the test reads the inherited value, the
    assignment is skipped and the update lands on the inherited object:
    [summary] gets no property. *)
Definition tally (summary : JsObject.t Z) (item : OrderItem.t) : JsObject.t Z :=
  let name := OrderItem.product_name item in
  match JsObject.get_own summary name with
  | Some q => JsObject.set summary name (q + OrderItem.quantity item)
  | None =>
      if JsObject.inherited name then summary
      else JsObject.set (JsObject.set summary name 0) name
                        (0 + OrderItem.quantity item)
  end.

Definition summarize (today : string) (orders : list Order) : JsObject.t Z :=
  foldl (λ summary order, foldl tally summary (DailyOrder.items (fields order)))
        [] (todayOrders today orders).

(** [Object.entries(summary).sort((a, b) => b[1].quantity - a[1].quantity)] *)
Definition productSummary (today : string) (orders : list Order) : list (string * Z) :=
  JsArray.sort (λ a b, b.2 - a.2) (JsObject.entries (summarize today orders)).

End Dashboard.

(** ** Remote store and authentication provider *)

Module AuthError.
(** What a rejected call throws: [error.code] and [error.message],
    either of which may be missing. *)
Record t := { code : option string; message : option string }.
End AuthError.

Inductive Outcome (A : Type) := Resolved (a : A) | Rejected (e : AuthError.t).
Arguments Resolved {A} _.
Arguments Rejected {A} _.

Module Store.
(** The four collections, each keyed by document id. *)
Record t := {
  profiles : gmap string Profile.t;
  products : gmap string Product.t;
  customers : gmap string Customer.t;
  daily_orders : gmap string DailyOrder.t;
}.
End Store.

(** [doc(db, collection, id)] *)
Record DocRef := doc { path : string; key : string }.

(** [query(collection(db, name), where(field, '==', value), ...)] *)
Record Query := query { collection : string; wheres : list (string * string) }.

Inductive Call :=
| CreateUserWithEmailAndPassword (email password : string)
| SignInWithEmailAndPassword (email password : string)
| SendEmailVerification (uid : string)
| SignOut
| GetDoc (ref : DocRef)
| SetDoc (ref : DocRef) (data : Profile.t)
| GetDocs (q : Query)
| BatchCommit (deletes : list DocRef)
| OnSnapshot (q : Query).

Module Snapshot.
(** An element of [snapshot.docs]. *)
Record doc (D : Type) := { id : string; data : D }.
Arguments id {D} _.
Arguments data {D} _.
End Snapshot.

(** ** React state of [AuthProvider] and the world around it *)

Module State.
Record t := {
  user : option AppUser.t;
  authLoading : bool;
  products : list (WithId Product.t);
  customers : list (WithId Customer.t);
  orders : list (WithId DailyOrder.t);
  dataLoading : bool;
  error : option string;
}.

(** The values given to [useState]. *)
Definition initial : t :=
  {| user := None; authLoading := true; products := []; customers := [];
     orders := []; dataLoading := true; error := None |}.

Definition setUser (u : option AppUser.t) (s : t) : t :=
  {| user := u; authLoading := authLoading s; products := products s;
     customers := customers s; orders := orders s;
     dataLoading := dataLoading s; error := error s |}.

Definition setAuthLoading (b : bool) (s : t) : t :=
  {| user := user s; authLoading := b; products := products s;
     customers := customers s; orders := orders s;
     dataLoading := dataLoading s; error := error s |}.

Definition setProducts (l : list (WithId Product.t)) (s : t) : t :=
  {| user := user s; authLoading := authLoading s; products := l;
     customers := customers s; orders := orders s;
     dataLoading := dataLoading s; error := error s |}.

Definition setCustomers (l : list (WithId Customer.t)) (s : t) : t :=
  {| user := user s; authLoading := authLoading s; products := products s;
     customers := l; orders := orders s;
     dataLoading := dataLoading s; error := error s |}.

Definition setOrders (l : list (WithId DailyOrder.t)) (s : t) : t :=
  {| user := user s; authLoading := authLoading s; products := products s;
     customers := customers s; orders := l;
     dataLoading := dataLoading s; error := error s |}.

Definition setDataLoading (b : bool) (s : t) : t :=
  {| user := user s; authLoading := authLoading s; products := products s;
     customers := customers s; orders := orders s;
     dataLoading := b; error := error s |}.

Definition setError (e : option string) (s : t) : t :=
  {| user := user s; authLoading := authLoading s; products := products s;
     customers := customers s; orders := orders s;
     dataLoading := dataLoading s; error := e |}.
End State.

Module World.
Record t := {
  app : State.t;                           (* the provider component's state *)
  currentUser : option FirebaseUser.t;     (* [auth.currentUser] *)
  db : Store.t;                            (* the remote collections *)
  listeners : list Query;                  (* open [onSnapshot] subscriptions *)
  calls : list Call;                       (* provider calls issued, oldest first *)
}.

Definition initial (db0 : Store.t) : t :=
  {| app := State.initial; currentUser := None; db := db0;
     listeners := []; calls := [] |}.

Definition update (f : State.t → State.t) (w : t) : t :=
  {| app := f (app w); currentUser := currentUser w; db := db w;
     listeners := listeners w; calls := calls w |}.

Definition setCurrentUser (u : option FirebaseUser.t) (w : t) : t :=
  {| app := app w; currentUser := u; db := db w;
     listeners := listeners w; calls := calls w |}.

Definition setDb (d : Store.t) (w : t) : t :=
  {| app := app w; currentUser := currentUser w; db := d;
     listeners := listeners w; calls := calls w |}.

Definition setListeners (l : list Query) (w : t) : t :=
  {| app := app w; currentUser := currentUser w; db := db w;
     listeners := l; calls := calls w |}.

Definition log (c : Call) (w : t) : t :=
  {| app := app w; currentUser := currentUser w; db := db w;
     listeners := listeners w; calls := calls w ++ [c] |}.
End World.

(** ** Asynchronous functions

    An [async] body is a function of the world that resolves with a value
    or rejects with an error. [await] issues a call, whose outcome is
    given, and applies the effect of the call when it resolves. *)

Definition Async (A : Type) : Type := World.t → Outcome A * World.t.

Definition resolve {A} (a : A) : Async A := λ w, (Resolved a, w).

Definition throw {A} (e : AuthError.t) : Async A := λ w, (Rejected e, w).

Definition bind {A B} (p : Async A) (k : A → Async B) : Async B :=
  λ w, match p w with
       | (Resolved a, w') => k a w'
       | (Rejected e, w') => (Rejected e, w')
       end.

Definition await {A} (c : Call) (r : Outcome A) (effect : A → World.t → World.t)
  : Async A :=
  λ w, match r with
       | Resolved a => (Resolved a, effect a (World.log c w))
       | Rejected e => (Rejected e, World.log c w)
       end.

Definition setState (f : State.t → State.t) : Async unit :=
  λ w, (Resolved tt, World.update f w).

(** [try { p } catch (error) { h error }] *)
Definition try_catch {A} (p : Async A) (h : AuthError.t → Async A) : Async A :=
  λ w, match p w with
       | (Resolved a, w') => (Resolved a, w')
       | (Rejected e, w') => h e w'
       end.

(** [... finally { f }] for a block [f] of state updates. *)
Definition finally {A} (p : Async A) (f : State.t → State.t) : Async A :=
  λ w, let '(r, w') := p w in (r, World.update f w').

Notation "'do' x <- p ; k" := (bind p (λ x, k))
  (at level 10, x name, p at level 100, k at level 200).
Notation "p ;; k" := (bind p (λ _, k))
  (at level 100, k at level 200, right associativity).

(** ** Session manager ([AuthProvider]) *)

Record Result := { success : bool; message : option string }.

(** [x || ''] on a string that may be null or undefined. *)
Definition or_empty (x : option string) : string := default ""%string x.

(** [error.message || 'An unknown error occurred.'] *)
Definition message_or_unknown (m : option string) : string :=
  match m with
  | Some m => if decide (m = ""%string) then "An unknown error occurred."%string else m
  | None => "An unknown error occurred."%string
  end.

Definition handleAuthError (error : AuthError.t) : string :=
  match AuthError.code error with
  | Some c =>
      if decide (c = "auth/invalid-email"%string) then "Invalid email format."%string
      else if decide (c = "auth/user-not-found"%string) then "Invalid login credentials"%string
      else if decide (c = "auth/wrong-password"%string) then "Invalid login credentials"%string
      else if decide (c = "auth/invalid-credential"%string) then "Invalid login credentials"%string
      else if decide (c = "auth/email-already-in-use"%string)
           then "An account with this email already exists."%string
      else if decide (c = "auth/weak-password"%string)
           then "Password should be at least 6 characters."%string
      else message_or_unknown (AuthError.message error)
  | None => message_or_unknown (AuthError.message error)
  end.

Definition failure (error : AuthError.t) : Result :=
  {| success := false; message := Some (handleAuthError error) |}.

(** The callback given to [onAuthStateChanged]. [getDoc] rejects with
    [getDoc_fault] when that is given; the callback then stops there. *)
Definition authStateChanged (firebaseUser : option FirebaseUser.t)
    (getDoc_fault : option AuthError.t) : Async unit :=
  setState (State.setAuthLoading true) ;;
  (match firebaseUser with
   | Some fu =>
       if FirebaseUser.emailVerified fu then
         do profileDoc <-
           (λ w, await (GetDoc (doc "profiles" (FirebaseUser.uid fu)))
                       (match getDoc_fault with
                        | Some e => Rejected e
                        | None => Resolved (Store.profiles (World.db w) !! FirebaseUser.uid fu)
                        end)
                       (λ _ w, w) w) ;
         let username :=
           match profileDoc with
           | Some p => Some (Profile.username p)
           | None => FirebaseUser.email fu
           end in
         setState (State.setUser
                     (Some {| AppUser.id := FirebaseUser.uid fu;
                              AppUser.email := or_empty (FirebaseUser.email fu);
                              AppUser.username := or_empty username |}))
       else setState (State.setUser None)
   | None => setState (State.setUser None)
   end) ;;
  setState (State.setAuthLoading false).

Definition login (email password : string)
    (signIn : Outcome FirebaseUser.t) (signOut : Outcome unit) : Async Result :=
  setState (State.setAuthLoading true) ;;
  finally
    (try_catch
       (do user <- await (SignInWithEmailAndPassword email password) signIn
                         (λ fu, World.setCurrentUser (Some fu)) ;
        if negb (FirebaseUser.emailVerified user) then
          await SignOut signOut (λ _, World.setCurrentUser None) ;;
          resolve {| success := false; message := Some "Email not confirmed"%string |}
        else resolve {| success := true; message := None |})
       (λ error, resolve (failure error)))
    (State.setAuthLoading false).

Definition register (email username password : string)
    (createUser : Outcome FirebaseUser.t)
    (sendVerification setProfile signOut : Outcome unit) (now : Z) : Async Result :=
  setState (State.setAuthLoading true) ;;
  finally
    (try_catch
       (do user <- await (CreateUserWithEmailAndPassword email password) createUser
                         (λ fu, World.setCurrentUser (Some fu)) ;
        await (SendEmailVerification (FirebaseUser.uid user)) sendVerification
              (λ _ w, w) ;;
        (let profile := {| Profile.username := username; Profile.email := email;
                           Profile.created_at := now |} in
         await (SetDoc (doc "profiles" (FirebaseUser.uid user)) profile) setProfile
               (λ _ w, World.setDb
                  {| Store.profiles :=
                       <[FirebaseUser.uid user := profile]> (Store.profiles (World.db w));
                     Store.products := Store.products (World.db w);
                     Store.customers := Store.customers (World.db w);
                     Store.daily_orders := Store.daily_orders (World.db w) |} w)) ;;
        await SignOut signOut (λ _, World.setCurrentUser None) ;;
        resolve {| success := true; message := None |})
       (λ error, resolve (failure error)))
    (State.setAuthLoading false).

Definition logout (signOut : Outcome unit) : Async unit :=
  setState (State.setAuthLoading true) ;;
  await SignOut signOut (λ _, World.setCurrentUser None) ;;
  setState (State.setUser None) ;;
  setState (State.setAuthLoading false).

(** ** Data synchronisation layer *)

(** The effect that depends on [user]. React runs the clean-up returned by
    the previous run (the three [unsub] calls) before the body. *)
Definition dataEffect (w : World.t) : World.t :=
  let w := World.setListeners [] w in
  match State.user (World.app w) with
  | None =>
      World.update
        (λ s, State.setOrders [] (State.setCustomers []
                (State.setProducts [] (State.setDataLoading false s)))) w
  | Some user =>
      let w := World.update
                 (λ s, State.setError None (State.setDataLoading true s)) w in
      let productsQuery := query "products" [("user_id", AppUser.id user)]%string in
      let customersQuery := query "customers" [("user_id", AppUser.id user)]%string in
      let ordersQuery := query "daily_orders" [("user_id", AppUser.id user)]%string in
      World.setListeners [productsQuery; customersQuery; ordersQuery]
        (World.log (OnSnapshot ordersQuery)
           (World.log (OnSnapshot customersQuery)
              (World.log (OnSnapshot productsQuery) w)))
  end.

(** [snapshot.docs.map(d => ({ id: d.id, ...d.data() }))] *)
Definition withIds {D} (docs : list (Snapshot.doc D)) : list (WithId D) :=
  map (λ d, {| id := Snapshot.id d; fields := Snapshot.data d |}) docs.

(** [(a, b) => a.created_at - b.created_at] *)
Definition compareProducts (a b : WithId Product.t) : Z :=
  Product.created_at (fields a) - Product.created_at (fields b).

Definition compareCustomers (a b : WithId Customer.t) : Z :=
  Customer.created_at (fields a) - Customer.created_at (fields b).

Definition onProductsSnapshot (docs : list (Snapshot.doc Product.t))
  : State.t → State.t :=
  State.setProducts (JsArray.sort compareProducts (withIds docs)).

Definition onCustomersSnapshot (docs : list (Snapshot.doc Customer.t))
  : State.t → State.t :=
  State.setCustomers (JsArray.sort compareCustomers (withIds docs)).

Section Orders.

(** [String.prototype.localeCompare]: negative, zero or positive. The
    collation belongs to the runtime and is left open here. *)
Variable localeCompare : string → string → Z.

(** [(a, b) => b.date.localeCompare(a.date) || b.created_at - a.created_at] *)
Definition compareOrders (a b : WithId DailyOrder.t) : Z :=
  let c := localeCompare (DailyOrder.date (fields b)) (DailyOrder.date (fields a)) in
  if c =? 0
  then DailyOrder.created_at (fields b) - DailyOrder.created_at (fields a)
  else c.

Definition onOrdersSnapshot (docs : list (Snapshot.doc DailyOrder.t))
  : State.t → State.t :=
  λ s, State.setDataLoading false
         (State.setOrders (JsArray.sort compareOrders (withIds docs)) s).

End Orders.

(** The string fields of an order that a [where] clause can test. *)
Definition orderField (o : DailyOrder.t) (f : string) : option string :=
  if decide (f = "user_id"%string) then Some (DailyOrder.user_id o)
  else if decide (f = "customer_id"%string) then Some (DailyOrder.customer_id o)
  else if decide (f = "customer_name"%string) then Some (DailyOrder.customer_name o)
  else if decide (f = "date"%string) then Some (DailyOrder.date o)
  else None.

Definition satisfies (ws : list (string * string)) (o : DailyOrder.t) : Prop :=
  Forall (λ w, orderField o w.1 = Some w.2) ws.

Global Instance satisfies_dec ws o : Decision (satisfies ws o).
Proof. unfold satisfies. apply _. Defined.

(** The documents [getDocs] returns for a query on [daily_orders]. *)
Definition selectOrders (q : Query) (db : Store.t) : list (Snapshot.doc DailyOrder.t) :=
  map (λ kv, {| Snapshot.id := kv.1; Snapshot.data := kv.2 |})
      (map_to_list (filter (λ kv, satisfies (wheres q) kv.2) (Store.daily_orders db))).

(** One [batch.delete(ref)], applied at commit. *)
Definition deleteDoc (db : Store.t) (ref : DocRef) : Store.t :=
  if decide (path ref = "profiles"%string) then
    {| Store.profiles := delete (key ref) (Store.profiles db);
       Store.products := Store.products db;
       Store.customers := Store.customers db;
       Store.daily_orders := Store.daily_orders db |}
  else if decide (path ref = "products"%string) then
    {| Store.profiles := Store.profiles db;
       Store.products := delete (key ref) (Store.products db);
       Store.customers := Store.customers db;
       Store.daily_orders := Store.daily_orders db |}
  else if decide (path ref = "customers"%string) then
    {| Store.profiles := Store.profiles db;
       Store.products := Store.products db;
       Store.customers := delete (key ref) (Store.customers db);
       Store.daily_orders := Store.daily_orders db |}
  else if decide (path ref = "daily_orders"%string) then
    {| Store.profiles := Store.profiles db;
       Store.products := Store.products db;
       Store.customers := Store.customers db;
       Store.daily_orders := delete (key ref) (Store.daily_orders db) |}
  else db.

(** [batch.commit()]: every write of the batch is applied, or, when the
    commit rejects, none is. *)
Definition commit (batch : list DocRef) (fault : option AuthError.t) : Async unit :=
  await (BatchCommit batch)
        (match fault with Some e => Rejected e | None => Resolved tt end)
        (λ _ w, World.setDb (foldl deleteDoc (World.db w) batch) w).

Definition deleteCustomer (customerId : string)
    (getDocs_fault commit_fault : option AuthError.t) : Async unit :=
  λ w,
    match State.user (World.app w) with
    | None =>
        throw {| AuthError.code := None;
                 AuthError.message := Some "User not authenticated"%string |} w
    | Some user =>
        (let ordersQuery :=
           query "daily_orders"
                 [("user_id", AppUser.id user); ("customer_id", customerId)]%string in
         do ordersSnapshot <-
           (λ w, await (GetDocs ordersQuery)
                       (match getDocs_fault with
                        | Some e => Rejected e
                        | None => Resolved (selectOrders ordersQuery (World.db w))
                        end)
                       (λ _ w, w) w) ;
         let batch :=
           (map (λ d, doc "daily_orders" (Snapshot.id d)) ordersSnapshot
            ++ [doc "customers" customerId])%list in
         commit batch commit_fault) w
    end.

(** ** Reference notions used by the statements *)

(** The integer a field holds, and [0] when it holds none. *)
Definition amount (v : Js.value) : Z :=
  match v with Js.Num (Js.Fin z) => z | _ => 0 end.

Definition finite (v : Js.value) : Prop := ∃ z, v = Js.int z.

(** The arithmetic sum of [f] over the orders dated [today]. *)
Fixpoint sumToday (f : DailyOrder.t → Z) (today : string)
    (orders : list (WithId DailyOrder.t)) : Z :=
  match orders with
  | [] => 0
  | o :: rest =>
      (if decide (DailyOrder.date (fields o) = today) then f (fields o) else 0)
      + sumToday f today rest
  end.

(** [a] may stand before [b] under the comparator [cmp]. *)
Definition before {A : Type} (cmp : A → A → Z) (a b : A) : Prop := cmp a b <= 0.

Definition exampleOrder (i : string) (total paid : Z) : WithId DailyOrder.t :=
  {| id := i;
     fields := {| DailyOrder.user_id := "u1"; DailyOrder.customer_id := "c1";
                  DailyOrder.customer_name := "Asha";
                  DailyOrder.date := "2024-01-01"; DailyOrder.items := [];
                  DailyOrder.total_amount := Js.int total;
                  DailyOrder.amount_paid := Js.int paid;
                  DailyOrder.status := pending; DailyOrder.created_at := 0 |} |}.


(** The order of the code units is one such collation; on dates written
    YYYY-MM-DD it is the order of the calendar. *)
Definition codeUnitCompare (a b : string) : Z :=
  match String.compare a b with Lt => -1 | Eq => 0 | Gt => 1 end.

Definition exampleOrderDoc (i day : string) (created : Z) : Snapshot.doc DailyOrder.t :=
  {| Snapshot.id := i;
     Snapshot.data :=
       {| DailyOrder.user_id := "u1"; DailyOrder.customer_id := "c1";
          DailyOrder.customer_name := "Asha"; DailyOrder.date := day;
          DailyOrder.items := []; DailyOrder.total_amount := Js.int 10;
          DailyOrder.amount_paid := Js.int 0; DailyOrder.status := pending;
          DailyOrder.created_at := created |} |}.

(** What can happen to the session, with the outcomes of the calls made. *)
Inductive Event :=
| AuthStateChanged (firebaseUser : option FirebaseUser.t)
                   (getDoc_fault : option AuthError.t)
| Login (email password : string)
        (signIn : Outcome FirebaseUser.t) (signOut : Outcome unit)
| Register (email username password : string) (createUser : Outcome FirebaseUser.t)
           (sendVerification setProfile signOut : Outcome unit) (now : Z)
| Logout (signOut : Outcome unit).

Definition step (w : World.t) (e : Event) : World.t :=
  match e with
  | AuthStateChanged fu fault => (authStateChanged fu fault w).2
  | Login email password signIn signOut => (login email password signIn signOut w).2
  | Register email username password c v p o now =>
      (register email username password c v p o now w).2
  | Logout signOut => (logout signOut w).2
  end.


(** The identity the application shows as logged in. *)
Definition exposed (w : World.t) : option AppUser.t := State.user (World.app w).

Definition emptyStore : Store.t :=
  {| Store.profiles := ∅; Store.products := ∅; Store.customers := ∅;
     Store.daily_orders := ∅ |}.

Definition amy : FirebaseUser.t :=
  {| FirebaseUser.uid := "uid-amy"; FirebaseUser.email := Some "amy@example.com";
     FirebaseUser.emailVerified := false |}.

(** The three mirrors are empty, nothing is loading, no subscription is
    open and no call has been issued since [w]. *)
Definition mirrorsReset (w w' : World.t) : Prop :=
  State.products (World.app w') = []
  ∧ State.customers (World.app w') = []
  ∧ State.orders (World.app w') = []
  ∧ State.dataLoading (World.app w') = false
  ∧ World.listeners w' = []
  ∧ World.calls w' = World.calls w.

Definition recognizedCodes : list string :=
  ["auth/invalid-email"; "auth/user-not-found"; "auth/wrong-password";
   "auth/invalid-credential"; "auth/email-already-in-use"; "auth/weak-password"].

(** The strings written in [handleAuthError]. *)
Definition fixedMessages : list string :=
  ["Invalid email format."; "Invalid login credentials";
   "An account with this email already exists.";
   "Password should be at least 6 characters."; "An unknown error occurred."].

(** The message of the table for a recognized code. *)
Definition tableMessage (c : string) : string :=
  if decide (c = "auth/invalid-email") then "Invalid email format."
  else if decide (c = "auth/email-already-in-use")
       then "An account with this email already exists."
  else if decide (c = "auth/weak-password")
       then "Password should be at least 6 characters."
  else "Invalid login credentials".

Definition recognized (error : AuthError.t) : Prop :=
  ∃ c, AuthError.code error = Some c ∧ c ∈ recognizedCodes.

Definition rateLimited : AuthError.t :=
  {| AuthError.code := Some "auth/too-many-requests";
     AuthError.message := Some "Firebase: Error (auth/too-many-requests)." |}.

Definition newProfile (email username : string) (now : Z) : Profile.t :=
  {| Profile.username := username; Profile.email := email;
     Profile.created_at := now |}.

(** The calls of a registration, in the order the specification gives them. *)
Definition registerCallsClaimed (email username password uid : string) (now : Z)
  : list Call :=
  [CreateUserWithEmailAndPassword email password;
   SetDoc (doc "profiles" uid) (newProfile email username now);
   SendEmailVerification uid;
   SignOut].

(** The same calls with the verification message before the profile. *)
Definition registerCalls (email username password uid : string) (now : Z)
  : list Call :=
  [CreateUserWithEmailAndPassword email password;
   SendEmailVerification uid;
   SetDoc (doc "profiles" uid) (newProfile email username now);
   SignOut].

(** The orders [deleteCustomer] looks for. *)
Definition ordersOf (uid customerId : string) (o : DailyOrder.t) : Prop :=
  DailyOrder.user_id o = uid ∧ DailyOrder.customer_id o = customerId.

Definition u1 : AppUser.t :=
  {| AppUser.id := "u1"; AppUser.email := "u1@example.com"; AppUser.username := "u1" |}.

Definition exampleOrderOf (uid customerId : string) : DailyOrder.t :=
  {| DailyOrder.user_id := uid; DailyOrder.customer_id := customerId;
     DailyOrder.customer_name := "Asha"; DailyOrder.date := "2024-01-01";
     DailyOrder.items := []; DailyOrder.total_amount := Js.int 10;
     DailyOrder.amount_paid := Js.int 0; DailyOrder.status := pending;
     DailyOrder.created_at := 0 |}.

Definition exampleCustomer (uid : string) : Customer.t :=
  {| Customer.user_id := uid; Customer.name := "Asha"; Customer.address := "12 Main";
     Customer.contact_number := "555"; Customer.created_at := 0 |}.

Definition exampleWorld : World.t :=
  {| World.app := State.setUser (Some u1) State.initial;
     World.currentUser := None;
     World.db :=
       {| Store.profiles := ∅; Store.products := ∅;
          Store.customers := {[ "c1" := exampleCustomer "u1"; "c2" := exampleCustomer "u1" ]};
          Store.daily_orders :=
            {[ "o1" := exampleOrderOf "u1" "c1"; "o2" := exampleOrderOf "u1" "c2";
               "o3" := exampleOrderOf "u2" "c1"; "o4" := exampleOrderOf "u1" "c1" ]} |};
     World.listeners := []; World.calls := [] |}.

(** The line items of the orders dated [today], in order. *)
Definition todayItems (today : string) (orders : list (WithId DailyOrder.t))
  : list OrderItem.t :=
  concat (map (λ o, DailyOrder.items (fields o)) (Dashboard.todayOrders today orders)).

(** The sum of [quantity] over the items named [name]. *)
Fixpoint quantityOf (name : string) (its : list OrderItem.t) : Z :=
  match its with
  | [] => 0
  | i :: rest =>
      (if decide (OrderItem.product_name i = name) then OrderItem.quantity i else 0)
      + quantityOf name rest
  end.

Definition named (name : string) (its : list OrderItem.t) : Prop :=
  name ∈ map OrderItem.product_name its.

Definition exampleItem (pid name : string) (q : Z) : OrderItem.t :=
  {| OrderItem.product_id := pid; OrderItem.product_name := name;
     OrderItem.quantity := q; OrderItem.unit := L; OrderItem.price := 30;
     OrderItem.total := 30 * q |}.

Definition exampleOrderWith (i : string) (its : list OrderItem.t) : WithId DailyOrder.t :=
  {| id := i;
     fields := {| DailyOrder.user_id := "u1"; DailyOrder.customer_id := "c1";
                  DailyOrder.customer_name := "Asha";
                  DailyOrder.date := "2024-01-01"; DailyOrder.items := its;
                  DailyOrder.total_amount := Js.int 0;
                  DailyOrder.amount_paid := Js.int 0;
                  DailyOrder.status := pending; DailyOrder.created_at := 0 |} |}.

(** ** The rest of the provider component *)

(** [await call] for a call that [World.calls] does not record: the writes
    of the synchronisation layer and the password update. *)
Definition awaiting {A} (r : Outcome A) (effect : A → World.t → World.t) : Async A :=
  λ w, match r with
       | Resolved a => (Resolved a, effect a w)
       | Rejected e => (Rejected e, w)
       end.

(** [new Error("User not authenticated")] *)
Definition notAuthenticated : AuthError.t :=
  {| AuthError.code := None; AuthError.message := Some "User not authenticated" |}.

Definition updatePassword (password : string) (fbUpdatePassword : Outcome unit)
  : Async Result :=
  setState (State.setAuthLoading true) ;;
  (λ w, match World.currentUser w with
        | None =>
            resolve {| success := false; message := Some "Not authenticated" |} w
        | Some _ =>
            finally
              (try_catch
                 (awaiting fbUpdatePassword (λ _ w, w) ;;
                  resolve {| success := true; message := None |})
                 (λ error, resolve (failure error)))
              (State.setAuthLoading false) w
        end).

(** [Omit<Product, 'id' | 'user_id' | 'created_at'>] *)
Module NewProduct.
Record t := {
  name : string;
  price : Z;
  quantity : Z;
  unit : Unit_;
  photo : option string;
}.
End NewProduct.

(** [Omit<Customer, 'id' | 'user_id' | 'created_at'>] *)
Module NewCustomer.
Record t := {
  name : string;
  address : string;
  contact_number : string;
}.
End NewCustomer.

(** [Omit<DailyOrder, 'id' | 'user_id' | 'created_at' | 'items'>] *)
Module NewOrder.
Record t := {
  customer_id : string;
  customer_name : string;
  date : string;
  total_amount : Js.value;
  amount_paid : Js.value;
  status : Status;
}.
End NewOrder.

(** [{ ...product, user_id: user.id, created_at: Timestamp.now() }] *)
Definition productDoc (product : NewProduct.t) (uid : string) (now : Z) : Product.t :=
  {| Product.user_id := uid; Product.name := NewProduct.name product;
     Product.price := NewProduct.price product;
     Product.quantity := NewProduct.quantity product;
     Product.unit := NewProduct.unit product;
     Product.photo := NewProduct.photo product; Product.created_at := now |}.

Definition customerDoc (customer : NewCustomer.t) (uid : string) (now : Z) : Customer.t :=
  {| Customer.user_id := uid; Customer.name := NewCustomer.name customer;
     Customer.address := NewCustomer.address customer;
     Customer.contact_number := NewCustomer.contact_number customer;
     Customer.created_at := now |}.

(** [{ ...order, items, user_id: user.id, created_at: Timestamp.now() }] *)
Definition orderDoc (order : NewOrder.t) (items : list OrderItem.t) (uid : string)
    (now : Z) : DailyOrder.t :=
  {| DailyOrder.user_id := uid; DailyOrder.customer_id := NewOrder.customer_id order;
     DailyOrder.customer_name := NewOrder.customer_name order;
     DailyOrder.date := NewOrder.date order; DailyOrder.items := items;
     DailyOrder.total_amount := NewOrder.total_amount order;
     DailyOrder.amount_paid := NewOrder.amount_paid order;
     DailyOrder.status := NewOrder.status order; DailyOrder.created_at := now |}.

Definition putProduct (k : string) (p : Product.t) (db : Store.t) : Store.t :=
  {| Store.profiles := Store.profiles db;
     Store.products := <[k := p]> (Store.products db);
     Store.customers := Store.customers db;
     Store.daily_orders := Store.daily_orders db |}.

Definition putCustomer (k : string) (c : Customer.t) (db : Store.t) : Store.t :=
  {| Store.profiles := Store.profiles db;
     Store.products := Store.products db;
     Store.customers := <[k := c]> (Store.customers db);
     Store.daily_orders := Store.daily_orders db |}.

Definition putOrder (k : string) (o : DailyOrder.t) (db : Store.t) : Store.t :=
  {| Store.profiles := Store.profiles db;
     Store.products := Store.products db;
     Store.customers := Store.customers db;
     Store.daily_orders := <[k := o]> (Store.daily_orders db) |}.

(** [addDoc] resolves with the reference of the document it created, under
    an id of the store's choosing. *)
Definition addProduct (product : NewProduct.t) (addDoc : Outcome string) (now : Z)
  : Async unit :=
  λ w, match State.user (World.app w) with
       | None => throw notAuthenticated w
       | Some user =>
           (awaiting addDoc
              (λ newId w, World.setDb
                 (putProduct newId (productDoc product (AppUser.id user) now)
                             (World.db w)) w) ;;
            resolve tt) w
       end.

Definition addCustomer (customer : NewCustomer.t) (addDoc : Outcome string) (now : Z)
  : Async unit :=
  λ w, match State.user (World.app w) with
       | None => throw notAuthenticated w
       | Some user =>
           (awaiting addDoc
              (λ newId w, World.setDb
                 (putCustomer newId (customerDoc customer (AppUser.id user) now)
                              (World.db w)) w) ;;
            resolve tt) w
       end.

Definition addOrder (order : NewOrder.t) (items : list OrderItem.t)
    (addDoc : Outcome string) (now : Z) : Async unit :=
  λ w, match State.user (World.app w) with
       | None => throw notAuthenticated w
       | Some user =>
           (awaiting addDoc
              (λ newId w, World.setDb
                 (putOrder newId (orderDoc order items (AppUser.id user) now)
                           (World.db w)) w) ;;
            resolve tt) w
       end.

(** [await deleteDoc(doc(db, 'products', productId))] *)
Definition deleteProduct (productId : string) (outcome : Outcome unit) : Async unit :=
  awaiting outcome
    (λ _ w, World.setDb (deleteDoc (World.db w) (doc "products" productId)) w).

(** [await deleteDoc(doc(db, 'daily_orders', orderId))] *)
Definition deleteOrder (orderId : string) (outcome : Outcome unit) : Async unit :=
  awaiting outcome
    (λ _ w, World.setDb (deleteDoc (World.db w) (doc "daily_orders" orderId)) w).

(** The error callbacks of the three listeners:
    [err => { setError(err.message); ... }]. *)
Definition onProductsError (message : string) : State.t → State.t :=
  State.setError (Some message).

Definition onCustomersError (message : string) : State.t → State.t :=
  State.setError (Some message).

Definition onOrdersError (message : string) : State.t → State.t :=
  λ s, State.setDataLoading false (State.setError (Some message) s).

(** The query of the orders listener opened for [uid]. *)
Definition ordersQueryOf (uid : string) : Query :=
  query "daily_orders" [("user_id", uid)].

(** ** [AppRoutes] *)

Inductive Screen :=
| Authenticating
| SignedOutRoutes
| LoadingData
| ErrorScreen (error : string)
| MainRoutes.

(** The four tests of [AppRoutes], in their order; [if (error)] passes on a
    string that is not empty. *)
Definition AppRoutes (s : State.t) : Screen :=
  if State.authLoading s then Authenticating
  else match State.user s with
       | None => SignedOutRoutes
       | Some _ =>
           if State.dataLoading s then LoadingData
           else match State.error s with
                | Some e => if decide (e = "") then MainRoutes else ErrorScreen e
                | None => MainRoutes
                end
       end.

(** ** [Dashboard], the rest *)

(** [!dataLoading && (customers.length === 0 || products.length === 0)] *)
Definition showGettingStarted (s : State.t) : bool :=
  negb (State.dataLoading s)
  && ((length (State.customers s) =? 0)%nat || (length (State.products s) =? 0)%nat).

(** What the dashboard puts under the statistics. *)
Inductive Panel := GettingStartedGuide | ProductSummary | NoOrdersToday.

(** [{showGettingStarted && <GettingStartedGuide />}] followed by
    [{productSummary.length > 0 ? summary : (!showGettingStarted && none)}];
    the component returns before them while [dataLoading]. *)
Definition panels (today : string) (s : State.t) : list Panel :=
  if State.dataLoading s then []
  else
    (if showGettingStarted s then [GettingStartedGuide] else [])
    ++ (if (0 <? length (Dashboard.productSummary today (State.orders s)))%nat
        then [ProductSummary]
        else if negb (showGettingStarted s) then [NoOrdersToday] else []).

(** ** Everything that can happen to the provider component *)

Inductive Action :=
| Session (e : Event)
| DataEffect
| ProductsSnapshot (docs : list (Snapshot.doc Product.t))
| CustomersSnapshot (docs : list (Snapshot.doc Customer.t))
| OrdersSnapshot (docs : list (Snapshot.doc DailyOrder.t))
| ProductsError (message : string)
| CustomersError (message : string)
| OrdersError (message : string)
| UpdatePassword (password : string) (outcome : Outcome unit)
| AddProduct (product : NewProduct.t) (addDoc : Outcome string) (now : Z)
| AddCustomer (customer : NewCustomer.t) (addDoc : Outcome string) (now : Z)
| AddOrder (order : NewOrder.t) (items : list OrderItem.t)
           (addDoc : Outcome string) (now : Z)
| DeleteProduct (productId : string) (outcome : Outcome unit)
| DeleteOrder (orderId : string) (outcome : Outcome unit)
| DeleteCustomer (customerId : string) (getDocs_fault commit_fault : option AuthError.t).

Definition act (localeCompare : string → string → Z) (w : World.t) (a : Action)
  : World.t :=
  match a with
  | Session e => step w e
  | DataEffect => dataEffect w
  | ProductsSnapshot docs => World.update (onProductsSnapshot docs) w
  | CustomersSnapshot docs => World.update (onCustomersSnapshot docs) w
  | OrdersSnapshot docs => World.update (onOrdersSnapshot localeCompare docs) w
  | ProductsError m => World.update (onProductsError m) w
  | CustomersError m => World.update (onCustomersError m) w
  | OrdersError m => World.update (onOrdersError m) w
  | UpdatePassword password outcome => (updatePassword password outcome w).2
  | AddProduct product addDoc now => (addProduct product addDoc now w).2
  | AddCustomer customer addDoc now => (addCustomer customer addDoc now w).2
  | AddOrder order items addDoc now => (addOrder order items addDoc now w).2
  | DeleteProduct productId outcome => (deleteProduct productId outcome w).2
  | DeleteOrder orderId outcome => (deleteOrder orderId outcome w).2
  | DeleteCustomer customerId f g => (deleteCustomer customerId f g w).2
  end.

Definition perform (localeCompare : string → string → Z) (actions : list Action)
    (w : World.t) : World.t :=
  foldl (act localeCompare) w actions.

(** A screen behind the sign-in gate. *)
Definition signedIn (screen : Screen) : Prop :=
  screen ≠ Authenticating ∧ screen ≠ SignedOutRoutes.

Definition bob : FirebaseUser.t :=
  {| FirebaseUser.uid := "uid-bob"; FirebaseUser.email := Some "bob@example.com";
     FirebaseUser.emailVerified := true |}.

Definition exampleNewOrder : NewOrder.t :=
  {| NewOrder.customer_id := "c2"; NewOrder.customer_name := "Asha";
     NewOrder.date := "2024-01-02"; NewOrder.total_amount := Js.int 60;
     NewOrder.amount_paid := Js.int 0; NewOrder.status := pending |}.

Definition exampleNewCustomer : NewCustomer.t :=
  {| NewCustomer.name := "Ravi"; NewCustomer.address := "4 Lake Road";
     NewCustomer.contact_number := "777" |}.

(** * Properties *)

(** ** Dashboard totals *)

Lemma or_zero_amount v : Js.or v (Js.int 0) = Js.int (amount v).
Proof.
  destruct v as [| |[z|]]; try reflexivity.
  unfold Js.or; simpl. destruct (Z.eqb_spec z 0) as [->|]; reflexivity.
Qed.

Lemma foldl_add_int {A} (g : A → Js.value) (f : A → Z) (l : list A) (a : Z) :
  Forall (λ o, g o = Js.int (f o)) l →
  foldl (λ sum o, Js.add sum (g o)) (Js.int a) l
  = Js.int (a + foldr (λ o acc, f o + acc) 0 l).
Proof.
  intros H. revert a. induction H as [|o l Ho _ IH]; intros a; simpl.
  - unfold Js.int. do 2 f_equal. lia.
  - rewrite Ho. change (Js.add (Js.int a) (Js.int (f o))) with (Js.int (a + f o)).
    rewrite IH. unfold Js.int. do 2 f_equal. lia.
Qed.

Lemma sumToday_filter f today orders :
  foldr (λ o acc, f (fields o) + acc) 0 (Dashboard.todayOrders today orders)
  = sumToday f today orders.
Proof.
  unfold Dashboard.todayOrders.
  induction orders as [|o rest IH]; [reflexivity|].
  rewrite filter_cons. cbn [sumToday].
  destruct (decide _); cbn [foldr].
  - f_equal. exact IH.
  - rewrite Z.add_0_l. exact IH.
Qed.

Lemma totalCollectionToday_sum today orders :
  Dashboard.totalCollectionToday today orders
  = Js.int (sumToday (λ o, amount (DailyOrder.amount_paid o)) today orders).
Proof.
  unfold Dashboard.totalCollectionToday.
  rewrite (foldl_add_int
             (λ o, Js.or (DailyOrder.amount_paid (fields o)) (Js.int 0))
             (λ o, amount (DailyOrder.amount_paid (fields o)))).
  - rewrite (sumToday_filter (λ o, amount (DailyOrder.amount_paid o))). reflexivity.
  - apply Forall_forall. intros o _. apply or_zero_amount.
Qed.

Lemma totalAmountToday_sum today orders :
  Forall (λ o, finite (DailyOrder.total_amount (fields o)))
         (Dashboard.todayOrders today orders) →
  Dashboard.totalAmountToday today orders
  = Js.int (sumToday (λ o, amount (DailyOrder.total_amount o)) today orders).
Proof.
  intros H. unfold Dashboard.totalAmountToday.
  rewrite (foldl_add_int
             (λ o, DailyOrder.total_amount (fields o))
             (λ o, amount (DailyOrder.total_amount (fields o)))).
  - rewrite (sumToday_filter (λ o, amount (DailyOrder.total_amount o))). reflexivity.
  - eapply Forall_impl; [exact H|]. intros o [z ->]. reflexivity.
Qed.



Lemma falsy_amount v : Js.ToBoolean v = false → amount v = 0.
Proof.
  destruct v as [| |[z|]]; simpl; try reflexivity.
  intros H. apply negb_false_iff in H. lia.
Qed.

Lemma sumToday_app f today l1 l2 :
  sumToday f today (l1 ++ l2) = sumToday f today l1 + sumToday f today l2.
Proof. induction l1 as [|o l1 IH]; simpl; [reflexivity|]. rewrite IH. lia. Qed.

Lemma add_NaN_r v w : Js.ToNumber w = Js.NaN → Js.add v w = Js.Num Js.NaN.
Proof. intros H. unfold Js.add. rewrite H. destruct (Js.ToNumber v); reflexivity. Qed.

Lemma foldl_add_NaN {A} (g : A → Js.value) (l : list A) :
  foldl (λ sum o, Js.add sum (g o)) (Js.Num Js.NaN) l = Js.Num Js.NaN.
Proof. induction l as [|o l IH]; simpl; [reflexivity|exact IH]. Qed.

(** C9. For an order counted today, a falsy [amount_paid] (undefined, null,
    zero or NaN) adds exactly 0 to [totalCollectionToday], which is a
    number whatever the fields hold; [total_amount] has no such guard, and
    an order whose [total_amount] is absent turns [totalAmountToday] into
    NaN. *)
Theorem amount_paid_guarded today (earlier later : list (WithId DailyOrder.t))
    (o : WithId DailyOrder.t) :
  DailyOrder.date (fields o) = today →
  (Js.ToBoolean (DailyOrder.amount_paid (fields o)) = false →
   Dashboard.totalCollectionToday today (earlier ++ o :: later)
   = Dashboard.totalCollectionToday today (earlier ++ later))
  ∧ (∃ z, Dashboard.totalCollectionToday today (earlier ++ o :: later) = Js.int z)
  ∧ (Js.ToNumber (DailyOrder.total_amount (fields o)) = Js.NaN →
     Dashboard.totalAmountToday today (earlier ++ o :: later) = Js.Num Js.NaN).
Proof.
  intros Hd. split; [|split].
  - intros Hf. rewrite !totalCollectionToday_sum, !sumToday_app.
    cbn [sumToday]. rewrite (falsy_amount _ Hf).
    destruct (decide _); unfold Js.int; do 2 f_equal; lia.
  - rewrite totalCollectionToday_sum. eexists; reflexivity.
  - intros Hn. unfold Dashboard.totalAmountToday, Dashboard.todayOrders.
    rewrite filter_app, filter_cons_True by exact Hd.
    rewrite foldl_app. cbn [foldl].
    rewrite (add_NaN_r _ _ Hn). apply foldl_add_NaN.
Qed.

Lemma amount_paid_guarded_witness :
  let unpaid :=
    {| id := "o9";
       fields := {| DailyOrder.user_id := "u1"; DailyOrder.customer_id := "c1";
                    DailyOrder.customer_name := "Asha";
                    DailyOrder.date := "2024-01-01"; DailyOrder.items := [];
                    DailyOrder.total_amount := Js.Undefined;
                    DailyOrder.amount_paid := Js.Undefined;
                    DailyOrder.status := pending; DailyOrder.created_at := 0 |} |} in
  Dashboard.totalCollectionToday "2024-01-01"
    ([exampleOrder "o1" 100 80] ++ unpaid :: [exampleOrder "o2" 50 50])
  = Js.int 130
  ∧ Dashboard.totalAmountToday "2024-01-01"
      ([exampleOrder "o1" 100 80] ++ unpaid :: [exampleOrder "o2" 50 50])
    = Js.Num Js.NaN.
Proof.
  intros unpaid.
  destruct (amount_paid_guarded "2024-01-01" [exampleOrder "o1" 100 80]
              [exampleOrder "o2" 50 50] unpaid eq_refl) as (H1 & _ & H3).
  split.
  - rewrite (H1 eq_refl). reflexivity.
  - exact (H3 eq_refl).
Defined.

(** ** Sorting with a comparator *)


Section SortFacts.

Context {A : Type} (cmp : A → A → Z).

Lemma insert_Permutation x l : JsArray.insert cmp x l ≡ₚ x :: l.
Proof.
  induction l as [|y l IH]; simpl; [reflexivity|].
  destruct (0 <? cmp x y); [|reflexivity].
  rewrite IH. apply Permutation_swap.
Qed.

Lemma sort_Permutation l : JsArray.sort cmp l ≡ₚ l.
Proof.
  induction l as [|x l IH]; simpl; [reflexivity|].
  rewrite insert_Permutation. by rewrite IH.
Qed.

(** The comparator is consistent: of two elements one may stand before
    the other, and [before] is transitive. *)
Hypothesis cmp_total : ∀ a b, 0 < cmp a b → cmp b a <= 0.
Hypothesis cmp_trans : ∀ a b c, cmp a b <= 0 → cmp b c <= 0 → cmp a c <= 0.

Lemma insert_HdRel x y l :
  before cmp y x → HdRel (before cmp) y l →
  HdRel (before cmp) y (JsArray.insert cmp x l).
Proof.
  intros Hyx Hl. destruct l as [|z l]; simpl; [by constructor|].
  destruct (0 <? cmp x z); constructor; [by inversion Hl | done].
Qed.

Lemma insert_Sorted x l :
  Sorted (before cmp) l → Sorted (before cmp) (JsArray.insert cmp x l).
Proof.
  induction 1 as [|y l Hs IH Hhd]; simpl; [by repeat constructor|].
  destruct (Z.ltb_spec 0 (cmp x y)) as [Hlt|Hge].
  - constructor; [exact IH|]. apply insert_HdRel; [|exact Hhd].
    by apply cmp_total.
  - constructor; [by constructor|]. constructor. exact Hge.
Qed.

Lemma sort_Sorted l : Sorted (before cmp) (JsArray.sort cmp l).
Proof.
  induction l as [|x l IH]; simpl; [constructor|]. by apply insert_Sorted.
Qed.

Lemma sort_StronglySorted l : StronglySorted (before cmp) (JsArray.sort cmp l).
Proof.
  apply Sorted_StronglySorted; [|apply sort_Sorted].
  intros a b c. apply cmp_trans.
Qed.

End SortFacts.

Lemma StronglySorted_weaken {A} (R S : A → A → Prop) l :
  (∀ a b, R a b → S a b) → StronglySorted R l → StronglySorted S l.
Proof.
  intros HRS. induction 1 as [|x l _ IH Hx]; constructor; [exact IH|].
  eapply Forall_impl; [exact Hx|]. intros b. apply HRS.
Qed.

(** ** Snapshot callbacks *)

Section Collation.

Variable localeCompare : string → string → Z.

(** What [Array.prototype.sort] asks of a comparator, for the collation. *)
Hypothesis localeCompare_antisym :
  ∀ a b, localeCompare a b < 0 ↔ 0 < localeCompare b a.
Hypothesis localeCompare_trans :
  ∀ a b c, localeCompare a b <= 0 → localeCompare b c <= 0 → localeCompare a c <= 0.





End Collation.




Example onOrdersSnapshot_run :
  map id (State.orders (onOrdersSnapshot codeUnitCompare
            [exampleOrderDoc "a" "2024-01-01" 5; exampleOrderDoc "b" "2024-01-02" 1;
             exampleOrderDoc "c" "2024-01-01" 9] State.initial))
  = ["b"; "c"; "a"]%string.
Proof. vm_compute. reflexivity. Qed.

(** ** Session *)

Ltac run_async :=
  unfold authStateChanged, login, register, logout, finally, try_catch, bind,
    await, setState, resolve, throw, failure, exposed; simpl.

Lemma authStateChanged_unverified fu fault w :
  FirebaseUser.emailVerified fu = false →
  exposed (authStateChanged (Some fu) fault w).2 = None.
Proof. intros H. run_async. rewrite H. reflexivity. Qed.

Lemma authStateChanged_exposed firebaseUser fault w u :
  exposed (authStateChanged firebaseUser fault w).2 = Some u →
  exposed w = Some u
  ∨ ∃ fu, firebaseUser = Some fu ∧ FirebaseUser.emailVerified fu = true
          ∧ AppUser.id u = FirebaseUser.uid fu.
Proof.
  run_async. destruct firebaseUser as [fu|]; simpl; [|discriminate].
  destruct (FirebaseUser.emailVerified fu) eqn:Hv; simpl; [|discriminate].
  destruct fault; simpl.
  - intros H. left. exact H.
  - intros [= <-]. right. exists fu. auto.
Qed.

Lemma login_exposed email password signIn signOut w :
  exposed (login email password signIn signOut w).2 = exposed w.
Proof.
  run_async. destruct signIn as [fu|e]; simpl; [|reflexivity].
  destruct (FirebaseUser.emailVerified fu); simpl; [reflexivity|].
  destruct signOut; reflexivity.
Qed.

Lemma register_exposed email username password c v p o now w :
  exposed (register email username password c v p o now w).2 = exposed w.
Proof.
  run_async. destruct c as [fu|e]; simpl; [|reflexivity].
  destruct v; simpl; [|reflexivity]. destruct p; simpl; [|reflexivity].
  destruct o; reflexivity.
Qed.

Lemma logout_exposed signOut w :
  exposed (logout signOut w).2 = exposed w ∨ exposed (logout signOut w).2 = None.
Proof. run_async. destruct signOut; simpl; auto. Qed.





(** ** Data effect on a null identity *)

Lemma dataEffect_null w : exposed w = None → mirrorsReset w (dataEffect w).
Proof.
  unfold exposed, dataEffect, mirrorsReset. simpl. intros ->. simpl. auto 10.
Qed.

(** C8. When the identity is null the effect empties the products,
    customers and orders mirrors and sets [dataLoading] to false, opening
    no subscription; this is the case after a completed logout and after
    the listener received an unverified identity. *)
Theorem null_identity_resets_mirrors :
  (∀ w, exposed w = None → mirrorsReset w (dataEffect w))
  ∧ (∀ w, let w' := (logout (Resolved tt) w).2 in mirrorsReset w' (dataEffect w'))
  ∧ (∀ fu fault w,
       FirebaseUser.emailVerified fu = false →
       let w' := (authStateChanged (Some fu) fault w).2 in
       mirrorsReset w' (dataEffect w')).
Proof.
  split; [|split].
  - apply dataEffect_null.
  - intros w w'. apply dataEffect_null. reflexivity.
  - intros fu fault w Hv w'. apply dataEffect_null.
    by apply authStateChanged_unverified.
Qed.

Lemma null_identity_resets_mirrors_witness :
  let w := (authStateChanged (Some amy) None (World.initial emptyStore)).2 in
  mirrorsReset w (dataEffect w).
Proof.
  destruct null_identity_resets_mirrors as (_ & _ & H).
  exact (H amy None (World.initial emptyStore) eq_refl).
Defined.

(** ** Error messages *)

(** C7, as the specification states it, fails: an error whose code is not in the table comes
    back with the text the provider supplied, which is none of the five
    fixed strings. *)
Lemma handleAuthError_surfaces_provider_text :
  ¬ recognized rateLimited
  ∧ handleAuthError rateLimited = "Firebase: Error (auth/too-many-requests)."
  ∧ handleAuthError rateLimited ∉ fixedMessages.
Proof.
  split; [|split].
  - intros (c & [= <-] & Hin). apply list_elem_of_In in Hin.
    simpl in Hin. intuition discriminate.
  - reflexivity.
  - intros Hin. apply list_elem_of_In in Hin.
    simpl in Hin. intuition discriminate.
Qed.

Lemma message_or_unknown_cases m :
  (∃ t, m = Some t ∧ t ≠ "" ∧ message_or_unknown m = t)
  ∨ ((m = None ∨ m = Some "") ∧ message_or_unknown m = "An unknown error occurred.").
Proof.
  destruct m as [t|]; simpl; [|auto].
  destruct (decide (t = "")) as [->|Hne]; [auto|].
  left. exists t. auto.
Qed.

(** C7, amended. A recognized code is mapped to its fixed string, one of
    four; any other error comes back with its own message text when that
    is not empty, and with the fixed generic message only when it has
    none. *)
Theorem handleAuthError_mapping error :
  (∃ c, AuthError.code error = Some c ∧ c ∈ recognizedCodes
        ∧ handleAuthError error = tableMessage c
        ∧ tableMessage c ∈ take 4 fixedMessages)
  ∨ (¬ recognized error
     ∧ ∃ m, AuthError.message error = Some m ∧ m ≠ ""
            ∧ handleAuthError error = m)
  ∨ (¬ recognized error
     ∧ (AuthError.message error = None ∨ AuthError.message error = Some "")
     ∧ handleAuthError error = "An unknown error occurred.").
Proof.
  unfold handleAuthError, recognized.
  destruct (AuthError.code error) as [c|] eqn:Hc.
  - repeat case_decide; subst;
      try (left; eexists; split; [reflexivity|];
           split; [unfold recognizedCodes; set_solver|];
           split; [reflexivity|]; vm_compute; set_solver).
    right.
    assert (Hnot : ¬ ∃ c0, Some c = Some c0 ∧ c0 ∈ recognizedCodes).
    { intros (c0 & [= <-] & Hin). apply list_elem_of_In in Hin.
      simpl in Hin. intuition congruence. }
    destruct (message_or_unknown_cases (AuthError.message error))
      as [(t & Hm & Hne & Hr)|(Hm & Hr)]; [left|right]; eauto.
  - right.
    assert (Hnot : ¬ ∃ c0, @None string = Some c0 ∧ c0 ∈ recognizedCodes).
    { intros (c0 & [=] & _). }
    destruct (message_or_unknown_cases (AuthError.message error))
      as [(t & Hm & Hne & Hr)|(Hm & Hr)]; [left|right]; eauto.
Qed.

(** ** Registration *)

(** C6, as the specification states it, fails: a registration that succeeds has sent the
    verification message before it wrote the profile record. *)
Lemma register_sends_verification_first :
  ∃ w',
    register "amy@example.com" "amy" "secret1" (Resolved amy) (Resolved tt)
             (Resolved tt) (Resolved tt) 1700 (World.initial emptyStore)
    = (Resolved {| success := true; message := None |}, w')
    ∧ World.calls w'
      = [CreateUserWithEmailAndPassword "amy@example.com" "secret1";
         SendEmailVerification "uid-amy";
         SetDoc (doc "profiles" "uid-amy") (newProfile "amy@example.com" "amy" 1700);
         SignOut]
    ∧ World.calls w'
      ≠ registerCallsClaimed "amy@example.com" "amy" "secret1" "uid-amy" 1700.
Proof.
  eexists. split; [reflexivity|]. split; [reflexivity|]. discriminate.
Qed.

(** C6, amended. [register] always returns a result; when the result is
    [success = true] it has, in this order, created the account, sent the
    verification message, written the profile record (username, email,
    creation time) of the new identity and signed that identity out. *)
Theorem register_sequence email username password c v p o now w :
  ∃ res w',
    register email username password c v p o now w = (Resolved res, w')
    ∧ (success res = true →
       ∃ fu, c = Resolved fu
             ∧ World.calls w'
               = World.calls w
                 ++ registerCalls email username password (FirebaseUser.uid fu) now
             ∧ Store.profiles (World.db w') !! FirebaseUser.uid fu
               = Some (newProfile email username now)
             ∧ World.currentUser w' = None
             ∧ exposed w' = exposed w
             ∧ message res = None).
Proof.
  run_async. destruct c as [fu|e]; simpl.
  2: { eexists _, _. split; [reflexivity|]. discriminate. }
  destruct v as [[]|e]; simpl.
  2: { eexists _, _. split; [reflexivity|]. discriminate. }
  destruct p as [[]|e]; simpl.
  2: { eexists _, _. split; [reflexivity|]. discriminate. }
  destruct o as [[]|e]; simpl.
  2: { eexists _, _. split; [reflexivity|]. discriminate. }
  eexists _, _. split; [reflexivity|]. intros _. exists fu. simpl.
  repeat split.
  - rewrite <- !app_assoc. reflexivity.
  - apply lookup_insert_eq.
Qed.

Lemma register_sequence_witness :
  ∃ w',
    register "amy@example.com" "amy" "secret1" (Resolved amy) (Resolved tt)
             (Resolved tt) (Resolved tt) 1700 (World.initial emptyStore)
    = (Resolved {| success := true; message := None |}, w')
    ∧ World.calls w'
      = registerCalls "amy@example.com" "amy" "secret1" "uid-amy" 1700
    ∧ World.currentUser w' = None.
Proof.
  destruct (register_sequence "amy@example.com" "amy" "secret1" (Resolved amy)
              (Resolved tt) (Resolved tt) (Resolved tt) 1700
              (World.initial emptyStore)) as (res & w' & Hrun & Hok).
  exists w'. injection Hrun as <- <-.
  destruct (Hok eq_refl) as (fu & [= <-] & Hcalls & _ & Hcur & _).
  repeat split; assumption.
Defined.

(** ** Deleting a customer *)

Lemma satisfies_ordersOf uid customerId o :
  satisfies [("user_id", uid); ("customer_id", customerId)] o
  ↔ ordersOf uid customerId o.
Proof.
  unfold satisfies, ordersOf. rewrite !Forall_cons, Forall_nil. simpl.
  change (orderField o "user_id") with (Some (DailyOrder.user_id o)).
  change (orderField o "customer_id") with (Some (DailyOrder.customer_id o)).
  split.
  - intros ([= H1] & [= H2] & _). auto.
  - intros [H1 H2]. rewrite H1, H2. auto.
Qed.

Lemma lookup_foldl_delete {V} (m : gmap string V) (ks : list string) (k : string) :
  foldl (λ m k, delete k m) m ks !! k = if decide (k ∈ ks) then None else m !! k.
Proof.
  revert m. induction ks as [|k' ks IH]; intros m; cbn [foldl].
  - case_decide as H; [by apply elem_of_nil in H|done].
  - rewrite IH. destruct (decide (k = k')) as [->|Hne].
    + rewrite lookup_delete_eq.
      destruct (decide (k' ∈ k' :: ks)) as [_|Hn]; [|exfalso; apply Hn; left].
      by destruct (decide (k' ∈ ks)).
    + rewrite lookup_delete_ne by done.
      destruct (decide (k ∈ ks)) as [Hin|Hnin].
      * destruct (decide (k ∈ k' :: ks)) as [_|Hn]; [done|].
        exfalso. apply Hn. by right.
      * destruct (decide (k ∈ k' :: ks)) as [[?|?]%elem_of_cons|_]; done.
Qed.

Lemma delete_selected {V} (P : V → Prop) `{∀ v, Decision (P v)} (m : gmap string V) :
  foldl (λ m k, delete k m) m
        (map fst (map_to_list (filter (λ kv, P kv.2) m)))
  = filter (λ kv, ¬ P kv.2) m.
Proof.
  apply map_eq. intros k. rewrite lookup_foldl_delete.
  case_decide as Hin.
  - apply list_elem_of_In, in_map_iff in Hin as ([k' v] & <- & Hin).
    apply list_elem_of_In, elem_of_map_to_list, map_lookup_filter_Some in Hin
      as [Hm HP]. simpl in *.
    symmetry. apply map_lookup_filter_None. right. intros v' Hv'.
    rewrite Hm in Hv'. injection Hv' as <-. simpl. tauto.
  - destruct (m !! k) as [v|] eqn:Hm.
    + symmetry. apply map_lookup_filter_Some. split; [done|]. simpl.
      intros HP. apply Hin. apply list_elem_of_In, in_map_iff.
      exists (k, v). split; [done|].
      apply list_elem_of_In, elem_of_map_to_list, map_lookup_filter_Some. done.
    + symmetry. apply map_lookup_filter_None. by left.
Qed.

Lemma foldl_deleteDoc_orders db (ks : list string) :
  foldl deleteDoc db (map (λ k, doc "daily_orders" k) ks)
  = {| Store.profiles := Store.profiles db;
       Store.products := Store.products db;
       Store.customers := Store.customers db;
       Store.daily_orders := foldl (λ m k, delete k m) (Store.daily_orders db) ks |}.
Proof.
  revert db. induction ks as [|k ks IH]; intros db; simpl.
  - by destruct db.
  - rewrite IH. reflexivity.
Qed.

Lemma selected_refs q db :
  map (λ d, doc "daily_orders" (Snapshot.id d)) (selectOrders q db)
  = map (λ k, doc "daily_orders" k)
        (map fst (map_to_list (filter (λ kv, satisfies (wheres q) kv.2)
                                      (Store.daily_orders db)))).
Proof. unfold selectOrders. rewrite !map_map. reflexivity. Qed.

Lemma deleteDoc_customers db customerId :
  deleteDoc db (doc "customers" customerId)
  = {| Store.profiles := Store.profiles db;
       Store.products := Store.products db;
       Store.customers := delete customerId (Store.customers db);
       Store.daily_orders := Store.daily_orders db |}.
Proof. reflexivity. Qed.

(** C2. Called with an authenticated identity, [deleteCustomer] either
    resolves, and then one batch commit has removed the customer document
    and exactly the orders whose [user_id] is the identity and whose
    [customer_id] is the customer, leaving every other document; or it
    rejects, and then the store is as it was. It resolves when neither
    the query nor the commit fails. *)
Theorem deleteCustomer_atomic customerId getDocs_fault commit_fault w user :
  exposed w = Some user →
  ∃ r w',
    deleteCustomer customerId getDocs_fault commit_fault w = (r, w')
    ∧ (getDocs_fault = None → commit_fault = None → r = Resolved tt)
    ∧ ((r = Resolved tt
        ∧ Store.customers (World.db w')
          = delete customerId (Store.customers (World.db w))
        ∧ Store.daily_orders (World.db w')
          = filter (λ kv, ¬ ordersOf (AppUser.id user) customerId kv.2)
                   (Store.daily_orders (World.db w))
        ∧ Store.products (World.db w') = Store.products (World.db w)
        ∧ Store.profiles (World.db w') = Store.profiles (World.db w)
        ∧ ∃ q batch, World.calls w' = World.calls w ++ [GetDocs q; BatchCommit batch])
       ∨ ((∃ e, r = Rejected e) ∧ World.db w' = World.db w)).
Proof.
  unfold exposed, deleteCustomer. intros ->.
  unfold bind, commit, await.
  destruct getDocs_fault as [e|].
  { eexists _, _. split; [reflexivity|]. split; [discriminate|].
    right. split; [by exists e|reflexivity]. }
  destruct commit_fault as [e|].
  { eexists _, _. split; [reflexivity|]. split; [discriminate|].
    right. split; [by exists e|reflexivity]. }
  eexists _, _. split; [reflexivity|]. split; [reflexivity|].
  left. split; [reflexivity|].
  cbn [World.db World.setDb World.log World.calls].
  rewrite foldl_app, selected_refs, foldl_deleteDoc_orders.
  cbn [foldl]. rewrite deleteDoc_customers. cbn [wheres].
  rewrite (delete_selected
             (satisfies [("user_id", AppUser.id user); ("customer_id", customerId)])).
  cbn. repeat split.
  - apply map_filter_ext. intros k o _. simpl.
    by rewrite satisfies_ordersOf.
  - eexists _, _. rewrite <- app_assoc. reflexivity.
Qed.

Lemma deleteCustomer_atomic_witness :
  ∃ w',
    deleteCustomer "c1" None None exampleWorld = (Resolved tt, w')
    ∧ dom (Store.customers (World.db w')) = {[ "c2" ]}
    ∧ dom (Store.daily_orders (World.db w')) = {[ "o2"; "o3" ]}.
Proof.
  destruct (deleteCustomer_atomic "c1" None None exampleWorld u1 eq_refl)
    as (r & w' & Hrun & Hok & Hcases).
  rewrite (Hok eq_refl eq_refl) in Hrun.
  exists w'. split; [exact Hrun|].
  injection Hrun as <-. vm_compute. split; reflexivity.
Defined.

(** ** Product summary *)

Lemma get_own_set {V} (o : JsObject.t V) k v k' :
  JsObject.get_own (JsObject.set o k v) k'
  = if decide (k = k') then Some v else JsObject.get_own o k'.
Proof.
  induction o as [|[k0 v0] o IH]; simpl.
  - destruct (decide (k = k')); reflexivity.
  - destruct (decide (k0 = k)) as [->|Hne]; simpl.
    + destruct (decide (k = k')); reflexivity.
    + rewrite IH. destruct (decide (k0 = k')) as [->|]; [|reflexivity].
      destruct (decide (k = k')); [congruence|reflexivity].
Qed.

Lemma keys_set {V} (o : JsObject.t V) k v :
  map fst (JsObject.set o k v)
  = match JsObject.get_own o k with
    | Some _ => map fst o
    | None => map fst o ++ [k]
    end.
Proof.
  induction o as [|[k0 v0] o IH]; simpl; [reflexivity|].
  destruct (decide (k0 = k)) as [->|Hne]; simpl; [reflexivity|].
  rewrite IH. destruct (JsObject.get_own o k); reflexivity.
Qed.

Lemma get_own_None {V} (o : JsObject.t V) k :
  JsObject.get_own o k = None ↔ k ∉ map fst o.
Proof.
  induction o as [|[k0 v0] o IH]; simpl.
  - split; [intros _; apply not_elem_of_nil|done].
  - rewrite not_elem_of_cons. destruct (decide (k0 = k)) as [->|Hne].
    + split; [done|]. intros [? _]. done.
    + rewrite IH. split; [intros ?; split; [congruence|done]|tauto].
Qed.

Lemma NoDup_set {V} (o : JsObject.t V) k v :
  NoDup (map fst o) → NoDup (map fst (JsObject.set o k v)).
Proof.
  intros Hnd. rewrite keys_set.
  destruct (JsObject.get_own o k) eqn:Hg; [exact Hnd|].
  apply NoDup_app. split; [exact Hnd|]. split; [|apply NoDup_singleton].
  intros x Hx ->%list_elem_of_singleton. by apply get_own_None in Hg.
Qed.

Lemma get_own_elem_of {V} (o : JsObject.t V) k v :
  NoDup (map fst o) → (k, v) ∈ o ↔ JsObject.get_own o k = Some v.
Proof.
  induction o as [|[k0 v0] o IH]; simpl; intros Hnd.
  - split; [intros H; by apply elem_of_nil in H|done].
  - apply NoDup_cons in Hnd as [Hk0 Hnd]. rewrite elem_of_cons.
    destruct (decide (k0 = k)) as [->|Hne].
    + split.
      * intros [[= ->]|Hin]; [done|]. exfalso. apply Hk0.
        apply list_elem_of_In, in_map_iff. exists (k, v).
        split; [done|]. by apply list_elem_of_In.
      * intros [= ->]. by left.
    + rewrite <- IH by done. split; [|tauto].
      intros [[= ? ?]|?]; [congruence|done].
Qed.

Lemma NoDup_tally summary item :
  NoDup (map fst summary) → NoDup (map fst (Dashboard.tally summary item)).
Proof.
  intros Hnd. unfold Dashboard.tally.
  destruct (JsObject.get_own summary _); [by apply NoDup_set|].
  destruct (JsObject.inherited _); [exact Hnd|]. by do 2 apply NoDup_set.
Qed.

Lemma get_own_tally summary item name :
  JsObject.get_own (Dashboard.tally summary item) name
  = match JsObject.get_own summary name with
    | Some q =>
        Some (q + if decide (OrderItem.product_name item = name)
                  then OrderItem.quantity item else 0)
    | None =>
        if decide (OrderItem.product_name item = name)
        then if JsObject.inherited name then None else Some (OrderItem.quantity item)
        else None
    end.
Proof.
  unfold Dashboard.tally.
  destruct (decide (OrderItem.product_name item = name)) as [->|Hne].
  - destruct (JsObject.get_own summary name) as [q|] eqn:Hg.
    + rewrite get_own_set, decide_True by done. reflexivity.
    + destruct (JsObject.inherited name); [exact Hg|].
      rewrite get_own_set, decide_True by done. reflexivity.
  - destruct (JsObject.get_own summary (OrderItem.product_name item)) as [q|].
    + rewrite get_own_set, decide_False by done.
      destruct (JsObject.get_own summary name); [|reflexivity].
      f_equal. lia.
    + destruct (JsObject.inherited (OrderItem.product_name item)).
      * destruct (JsObject.get_own summary name); [|reflexivity]. f_equal. lia.
      * rewrite !get_own_set, !decide_False by done.
        destruct (JsObject.get_own summary name); [|reflexivity]. f_equal. lia.
Qed.

Lemma get_own_foldl_tally its summary name :
  JsObject.get_own (foldl Dashboard.tally summary its) name
  = match JsObject.get_own summary name with
    | Some q => Some (q + quantityOf name its)
    | None =>
        if decide (name ∈ map OrderItem.product_name its)
        then if JsObject.inherited name then None else Some (quantityOf name its)
        else None
    end.
Proof.
  revert summary. induction its as [|i its IH]; intros summary; cbn [foldl quantityOf].
  - destruct (JsObject.get_own summary name); [f_equal; lia|].
    rewrite decide_False; [reflexivity|]. apply not_elem_of_nil.
  - rewrite IH, get_own_tally. cbn [map].
    destruct (JsObject.get_own summary name) as [q|]; [f_equal; lia|].
    destruct (decide (OrderItem.product_name i = name)) as [Hi|Hi].
    + destruct (decide (name ∈ _ :: _)) as [_|Hn];
        [|exfalso; apply Hn; rewrite Hi; left].
      destruct (JsObject.inherited name); [|reflexivity].
      destruct (decide _); reflexivity.
    + destruct (decide (name ∈ map OrderItem.product_name its)) as [Hin|Hin];
        destruct (decide (name ∈ _ :: _)) as [Hc|Hc].
      * destruct (JsObject.inherited name); [reflexivity|f_equal; lia].
      * exfalso. apply Hc. by right.
      * apply elem_of_cons in Hc as [?|?]; congruence.
      * reflexivity.
Qed.

Lemma summarize_items today orders :
  Dashboard.summarize today orders = foldl Dashboard.tally [] (todayItems today orders).
Proof.
  unfold Dashboard.summarize, todayItems.
  generalize (@nil (string * Z)) as summary.
  induction (Dashboard.todayOrders today orders) as [|o os IH]; intros summary.
  - reflexivity.
  - cbn [foldl map concat]. rewrite foldl_app. apply IH.
Qed.

Lemma NoDup_foldl_tally its summary :
  NoDup (map fst summary) → NoDup (map fst (foldl Dashboard.tally summary its)).
Proof.
  revert summary. induction its as [|i its IH]; intros summary Hnd; [exact Hnd|].
  cbn [foldl]. apply IH. by apply NoDup_tally.
Qed.

Lemma entries_Permutation {V} (o : JsObject.t V) : JsObject.entries o ≡ₚ o.
Proof.
  unfold JsObject.entries. rewrite sort_Permutation.
  apply filter_app_complement.
Qed.

Lemma productSummary_Permutation today orders :
  Dashboard.productSummary today orders ≡ₚ Dashboard.summarize today orders.
Proof.
  unfold Dashboard.productSummary. rewrite sort_Permutation.
  apply entries_Permutation.
Qed.

(** What the summary holds, for the names an object literal does not
    inherit: one entry for each name met in today's line items, with the
    sum of the quantities under that name, in descending order of the
    sums. An inherited name has no entry. *)
Lemma productSummary_entries today orders :
  StronglySorted (λ a b, b.2 <= a.2) (Dashboard.productSummary today orders)
  ∧ NoDup (map fst (Dashboard.productSummary today orders))
  ∧ ∀ name q,
      (name, q) ∈ Dashboard.productSummary today orders
      ↔ JsObject.inherited name = false
        ∧ named name (todayItems today orders)
        ∧ q = quantityOf name (todayItems today orders).
Proof.
  assert (Hnd : NoDup (map fst (Dashboard.summarize today orders))).
  { rewrite summarize_items. apply NoDup_foldl_tally. constructor. }
  split; [|split].
  - eapply StronglySorted_weaken;
      [|apply (sort_StronglySorted (λ a b : string * Z, b.2 - a.2))];
      unfold before; intros; lia.
  - by rewrite productSummary_Permutation.
  - intros name q. rewrite productSummary_Permutation.
    rewrite get_own_elem_of by exact Hnd.
    rewrite summarize_items, get_own_foldl_tally. cbn [JsObject.get_own].
    unfold named. destruct (decide _) as [Hin|Hin].
    + destruct (JsObject.inherited name).
      * split; [discriminate|]. intros ([=] & _).
      * split; [intros [= <-]; auto|]. intros (_ & _ & ->). reflexivity.
    + split; [discriminate|]. intros (_ & ? & _). done.
Qed.

(** C5. The summary is to hold, for each product name met in today's line
    items, the sum of the quantities, in descending order of the sums
    ([productSummary_entries] gives this for the names an object literal
    does not inherit). Here today's orders hold 2 of a product named
    [constructor] and 3 and 4 of [Milk]: the summary holds [Milk] with 7
    and nothing for [constructor]. *)
Theorem productSummary_misses_inherited_name :
  let orders :=
    [exampleOrderWith "o1" [exampleItem "p1" "constructor" 2; exampleItem "p2" "Milk" 3];
     exampleOrderWith "o2" [exampleItem "p2" "Milk" 4]] in
  named "constructor" (todayItems "2024-01-01" orders)
  ∧ quantityOf "constructor" (todayItems "2024-01-01" orders) = 2
  ∧ Dashboard.productSummary "2024-01-01" orders = [("Milk", 7)]
  ∧ ∀ q, ("constructor", q) ∉ Dashboard.productSummary "2024-01-01" orders.
Proof.
  intros orders. split; [|split; [|split]].
  - unfold named. vm_compute. left.
  - reflexivity.
  - reflexivity.
  - intros q Hin. apply productSummary_entries in Hin as (Hinh & _). discriminate.
Qed.

(** C10. Line items that share a product name under different product ids
    are to be merged into one entry under the name. Here [Curd] is sold
    under the ids p3 and p4 (2 and 5) and a product named [toString] under
    p1 and p2 (1 and 4): the two [Curd] items are merged into one entry
    with 7, the two [toString] items leave no entry. *)
Theorem productSummary_shared_name_without_entry :
  let orders :=
    [exampleOrderWith "o1" [exampleItem "p1" "toString" 1; exampleItem "p3" "Curd" 2];
     exampleOrderWith "o2" [exampleItem "p2" "toString" 4; exampleItem "p4" "Curd" 5]] in
  Dashboard.productSummary "2024-01-01" orders = [("Curd", 7)]
  ∧ quantityOf "toString" (todayItems "2024-01-01" orders) = 5
  ∧ ∀ q, ("toString", q) ∉ Dashboard.productSummary "2024-01-01" orders.
Proof.
  intros orders. split; [reflexivity|]. split; [reflexivity|].
  intros q Hin. apply productSummary_entries in Hin as (Hinh & _). discriminate.
Qed.

(** * Further properties of the code *)

(** ** Messages and results of the session manager *)

Lemma message_or_unknown_nonempty m : message_or_unknown m ≠ "".
Proof.
  destruct m as [t|]; simpl; [|discriminate].
  destruct (decide (t = "")); [discriminate|assumption].
Qed.

(** X1. Whatever the error, [handleAuthError] returns a message that is
    not the empty string: a failed call always has something to show. *)
Theorem handleAuthError_nonempty error : handleAuthError error ≠ "".
Proof.
  unfold handleAuthError. destruct (AuthError.code error) as [c|];
    [|apply message_or_unknown_nonempty].
  repeat case_decide; try discriminate. apply message_or_unknown_nonempty.
Qed.

(** X2. [login] always returns a result and ends with [authLoading] false.
    The result is [success = true] exactly when the sign-in resolved with a
    verified identity; that identity is then the provider's session, no
    sign-out was issued and there is no message. Every other result carries
    a message that is not empty. *)
Theorem login_result email password signIn signOut w :
  ∃ res w',
    login email password signIn signOut w = (Resolved res, w')
    ∧ State.authLoading (World.app w') = false
    ∧ (success res = true
       ↔ ∃ fu, signIn = Resolved fu ∧ FirebaseUser.emailVerified fu = true)
    ∧ (success res = true →
       (∃ fu, signIn = Resolved fu ∧ World.currentUser w' = Some fu)
       ∧ World.calls w' = World.calls w ++ [SignInWithEmailAndPassword email password]
       ∧ message res = None)
    ∧ (success res = false → ∃ m, message res = Some m ∧ m ≠ "").
Proof.
  run_async. destruct signIn as [fu|e]; simpl.
  - destruct (FirebaseUser.emailVerified fu) eqn:Hv; simpl.
    + eexists _, _. split; [reflexivity|]. simpl. repeat split; try done;
        exists fu; auto.
    + destruct signOut as [[]|e]; simpl; eexists _, _;
        (split; [reflexivity|]); simpl; repeat split; try done.
      * intros (fu' & [= <-] & Hv'). congruence.
      * intros _. eexists. split; [reflexivity|discriminate].
      * intros (fu' & [= <-] & Hv'). congruence.
      * intros _. eexists. split; [reflexivity|apply handleAuthError_nonempty].
  - eexists _, _. split; [reflexivity|]. simpl. repeat split; try done.
    + intros (fu & [=] & _).
    + intros _. eexists. split; [reflexivity|apply handleAuthError_nonempty].
Qed.

(** X3. When the account was created and [register] still fails, the new
    identity stays signed in at the provider (the sign-out is the last step
    and nothing undoes the account), [authLoading] is false, the message is
    not empty, and the profile record exists exactly when both the
    verification message and the profile write went through, that is when
    only the sign-out failed. The identity is not exposed by any of this. *)
Theorem register_failure_after_creation email username password fu v p o now w res w' :
  register email username password (Resolved fu) v p o now w = (Resolved res, w') →
  success res = false →
  World.currentUser w' = Some fu
  ∧ State.authLoading (World.app w') = false
  ∧ exposed w' = exposed w
  ∧ (∃ m, message res = Some m ∧ m ≠ "")
  ∧ ((v = Resolved tt ∧ p = Resolved tt ∧ (∃ e, o = Rejected e)
      ∧ Store.profiles (World.db w') !! FirebaseUser.uid fu
        = Some (newProfile email username now))
     ∨ (((∃ e, v = Rejected e) ∨ (∃ e, p = Rejected e))
        ∧ World.db w' = World.db w)).
Proof.
  run_async.
  destruct v as [[]|e]; simpl;
    [|intros [= <- <-] _; simpl; repeat split;
      [eexists; split; [reflexivity|apply handleAuthError_nonempty]
      |right; split; [left; by exists e|reflexivity]]].
  destruct p as [[]|e]; simpl;
    [|intros [= <- <-] _; simpl; repeat split;
      [eexists; split; [reflexivity|apply handleAuthError_nonempty]
      |right; split; [right; by exists e|reflexivity]]].
  destruct o as [[]|e]; simpl; intros [= <- <-]; simpl; [discriminate|].
  intros _. repeat split.
  - eexists; split; [reflexivity|apply handleAuthError_nonempty].
  - left. repeat split; [by exists e|apply lookup_insert_eq].
Qed.

Lemma register_failure_after_creation_witness :
  ∃ res w',
    register "amy@example.com" "amy" "secret1" (Resolved amy) (Resolved tt)
             (Rejected rateLimited) (Resolved tt) 1700 (World.initial emptyStore)
    = (Resolved res, w')
    ∧ success res = false
    ∧ World.currentUser w' = Some amy
    ∧ World.db w' = emptyStore.
Proof.
  eexists _, _. split; [reflexivity|]. split; [reflexivity|].
  destruct (register_failure_after_creation "amy@example.com" "amy" "secret1" amy
              (Resolved tt) (Rejected rateLimited) (Resolved tt) 1700
              (World.initial emptyStore) _ _ eq_refl eq_refl)
    as (Hcur & _ & _ & _ & _).
  split; [exact Hcur|reflexivity].
Defined.

(** X4. Called without a provider session, [updatePassword] returns
    [Not authenticated] before its [try] block: the [finally] that resets
    [authLoading] does not run, the flag stays true and [AppRoutes] shows
    the authenticating screen whatever else the state holds. With a session
    the flag is reset, and the result is [success = true] exactly when the
    provider call resolved. *)
Theorem updatePassword_session password outcome w :
  (World.currentUser w = None →
   ∃ w',
     updatePassword password outcome w
     = (Resolved {| success := false; message := Some "Not authenticated" |}, w')
     ∧ State.authLoading (World.app w') = true
     ∧ AppRoutes (World.app w') = Authenticating
     ∧ World.db w' = World.db w)
  ∧ (World.currentUser w ≠ None →
     ∃ res w',
       updatePassword password outcome w = (Resolved res, w')
       ∧ State.authLoading (World.app w') = false
       ∧ (success res = true ↔ outcome = Resolved tt)
       ∧ World.currentUser w' = World.currentUser w).
Proof.
  unfold updatePassword. run_async. split.
  - intros ->. eexists. repeat split.
  - destruct (World.currentUser w) as [cu|] eqn:Hcu; [intros _|done].
    unfold awaiting. destruct outcome as [[]|e]; simpl;
      eexists _, _; (split; [reflexivity|]); simpl; repeat split; done.
Qed.

Lemma updatePassword_session_witness :
  ∃ w',
    updatePassword "secret2" (Resolved tt) (World.initial emptyStore)
    = (Resolved {| success := false; message := Some "Not authenticated" |}, w')
    ∧ AppRoutes (World.app w') = Authenticating.
Proof.
  destruct (updatePassword_session "secret2" (Resolved tt) (World.initial emptyStore))
    as [Hnone _].
  destruct (Hnone eq_refl) as (w' & Hrun & _ & Hscreen & _).
  exists w'. split; assumption.
Defined.

(** X5. A [logout] whose sign-out resolves leaves no exposed user, no
    provider session and [authLoading] false. One whose sign-out rejects
    stops at the rejection: the user stays exposed, the session stays and
    [authLoading] stays true, so that [AppRoutes] shows the authenticating
    screen. *)
Theorem logout_outcomes signOut w :
  (signOut = Resolved tt →
   exposed (logout signOut w).2 = None
   ∧ World.currentUser (logout signOut w).2 = None
   ∧ State.authLoading (World.app (logout signOut w).2) = false)
  ∧ (∀ e, signOut = Rejected e →
     (logout signOut w).1 = Rejected e
     ∧ exposed (logout signOut w).2 = exposed w
     ∧ World.currentUser (logout signOut w).2 = World.currentUser w
     ∧ AppRoutes (World.app (logout signOut w).2) = Authenticating).
Proof.
  split.
  - intros ->. run_async. auto.
  - intros e ->. run_async. auto.
Qed.

Lemma logout_outcomes_witness :
  exposed (logout (Resolved tt) exampleWorld).2 = None
  ∧ exposed (logout (Rejected rateLimited) exampleWorld).2 = Some u1.
Proof.
  destruct (logout_outcomes (Resolved tt) exampleWorld) as [Hok _].
  destruct (logout_outcomes (Rejected rateLimited) exampleWorld) as [_ Hko].
  destruct (Hok eq_refl) as (H1 & _).
  destruct (Hko rateLimited eq_refl) as (_ & H2 & _).
  split; [exact H1|exact H2].
Defined.

(** ** Writes and the snapshots that follow them *)

Lemma elem_of_selectOrders q db (o : WithId DailyOrder.t) :
  o ∈ withIds (selectOrders q db)
  ↔ Store.daily_orders db !! id o = Some (fields o)
    ∧ satisfies (wheres q) (fields o).
Proof.
  unfold withIds, selectOrders. rewrite map_map. simpl.
  rewrite list_elem_of_In, in_map_iff. split.
  - intros ([k d] & <- & Hin). simpl.
    by apply list_elem_of_In, elem_of_map_to_list, map_lookup_filter_Some in Hin.
  - intros [Hl Hs]. exists (id o, fields o). split; [by destruct o|].
    apply list_elem_of_In, elem_of_map_to_list, map_lookup_filter_Some. done.
Qed.

Lemma satisfies_owner uid o :
  satisfies (wheres (ordersQueryOf uid)) o ↔ DailyOrder.user_id o = uid.
Proof.
  unfold satisfies. simpl. rewrite Forall_cons, Forall_nil. simpl.
  change (orderField o "user_id") with (Some (DailyOrder.user_id o)).
  split; [by intros [[= ?] _]|by intros ->].
Qed.

Lemma elem_of_orders_mirror localeCompare docs s (o : WithId DailyOrder.t) :
  o ∈ State.orders (onOrdersSnapshot localeCompare docs s) ↔ o ∈ withIds docs.
Proof. simpl. by rewrite sort_Permutation. Qed.

(** The orders mirror once the listener of [uid] has delivered the state
    [db] of the store. *)
Lemma elem_of_delivered localeCompare uid db s (o : WithId DailyOrder.t) :
  o ∈ State.orders
        (onOrdersSnapshot localeCompare (selectOrders (ordersQueryOf uid) db) s)
  ↔ Store.daily_orders db !! id o = Some (fields o)
    ∧ DailyOrder.user_id (fields o) = uid.
Proof. by rewrite elem_of_orders_mirror, elem_of_selectOrders, satisfies_owner. Qed.

Lemma addOrder_resolved order items newId now w user :
  exposed w = Some user →
  addOrder order items (Resolved newId) now w
  = (Resolved tt,
     World.setDb (putOrder newId (orderDoc order items (AppUser.id user) now)
                           (World.db w)) w).
Proof. unfold exposed, addOrder. intros ->. reflexivity. Qed.

(** X6. [addOrder] does not touch the mirrors: the state of the component
    is the same after it. The order reaches the orders mirror with the next
    snapshot of the owner's listener, under the id the store gave it, owned
    by the current user and stamped with the current time, whatever
    [user_id] the caller had in mind; and every order of that mirror
    belongs to the current user. *)
Theorem addOrder_reaches_mirror localeCompare order items newId now w user :
  exposed w = Some user →
  let w1 := (addOrder order items (Resolved newId) now w).2 in
  let mirror :=
    State.orders
      (onOrdersSnapshot localeCompare
         (selectOrders (ordersQueryOf (AppUser.id user)) (World.db w1))
         (World.app w1)) in
  World.app w1 = World.app w
  ∧ {| id := newId; fields := orderDoc order items (AppUser.id user) now |} ∈ mirror
  ∧ (∀ o, o ∈ mirror → DailyOrder.user_id (fields o) = AppUser.id user)
  ∧ (∀ o, id o ≠ newId →
          o ∈ mirror
          ↔ o ∈ State.orders
                  (onOrdersSnapshot localeCompare
                     (selectOrders (ordersQueryOf (AppUser.id user)) (World.db w))
                     (World.app w))).
Proof.
  intros Hu w1 mirror. subst mirror w1.
  rewrite (addOrder_resolved _ _ _ _ _ _ Hu). cbn [snd World.app World.db World.setDb].
  split; [reflexivity|]. split; [|split].
  - apply elem_of_delivered. cbn [id fields Store.daily_orders putOrder].
    split; [apply lookup_insert_eq|reflexivity].
  - intros o Ho. by apply elem_of_delivered in Ho as [_ ?].
  - intros o Hne. rewrite !elem_of_delivered. cbn [Store.daily_orders putOrder].
    by rewrite lookup_insert_ne.
Qed.

Lemma addOrder_reaches_mirror_witness :
  {| id := "o9"; fields := orderDoc exampleNewOrder [] "u1" 1700 |}
  ∈ State.orders
      (onOrdersSnapshot codeUnitCompare
         (selectOrders (ordersQueryOf "u1")
            (World.db (addOrder exampleNewOrder [] (Resolved "o9") 1700 exampleWorld).2))
         (World.app exampleWorld)).
Proof.
  exact (proj1 (proj2 (addOrder_reaches_mirror codeUnitCompare exampleNewOrder []
                         "o9" 1700 exampleWorld u1 eq_refl))).
Defined.

Lemma deleteCustomer_resolved customerId w user :
  exposed w = Some user →
  ∃ w',
    deleteCustomer customerId None None w = (Resolved tt, w')
    ∧ World.app w' = World.app w
    ∧ World.db w'
      = {| Store.profiles := Store.profiles (World.db w);
           Store.products := Store.products (World.db w);
           Store.customers := delete customerId (Store.customers (World.db w));
           Store.daily_orders :=
             filter (λ kv, ¬ ordersOf (AppUser.id user) customerId kv.2)
                    (Store.daily_orders (World.db w)) |}.
Proof.
  unfold exposed, deleteCustomer. intros ->. unfold bind, commit, await.
  eexists. split; [reflexivity|]. split; [reflexivity|].
  cbn [World.db World.setDb World.log].
  rewrite foldl_app, selected_refs, foldl_deleteDoc_orders.
  cbn [foldl]. rewrite deleteDoc_customers. cbn [wheres].
  rewrite (delete_selected
             (satisfies [("user_id", AppUser.id user); ("customer_id", customerId)])).
  cbn. f_equal. apply map_filter_ext. intros k o _. simpl.
  by rewrite satisfies_ordersOf.
Qed.

(** X7. After a [deleteCustomer] that resolved, the next snapshot of the
    owner's orders listener puts in the mirror exactly the orders it would
    have put there before, less those of the deleted customer; until that
    snapshot the component's state is what it was. *)
Theorem deleteCustomer_reaches_mirror localeCompare customerId w user :
  exposed w = Some user →
  let w1 := (deleteCustomer customerId None None w).2 in
  let mirror (db : Store.t) :=
    State.orders
      (onOrdersSnapshot localeCompare
         (selectOrders (ordersQueryOf (AppUser.id user)) db) (World.app w)) in
  World.app w1 = World.app w
  ∧ ∀ o, o ∈ mirror (World.db w1)
         ↔ o ∈ mirror (World.db w)
           ∧ DailyOrder.customer_id (fields o) ≠ customerId.
Proof.
  intros Hu w1 mirror. subst mirror w1.
  destruct (deleteCustomer_resolved customerId w user Hu) as (w' & -> & Happ & Hdb).
  cbn [snd]. split; [exact Happ|]. intros o.
  rewrite !elem_of_delivered, Hdb. cbn [Store.daily_orders].
  rewrite map_lookup_filter_Some. unfold ordersOf. simpl. split.
  - intros [[Hl Hn] Hown]. repeat split; try done. intros Hc. apply Hn. done.
  - intros [[Hl Hown] Hc]. repeat split; try done. intros [_ ?]. done.
Qed.

Lemma deleteCustomer_reaches_mirror_witness :
  map id
    (State.orders
       (onOrdersSnapshot codeUnitCompare
          (selectOrders (ordersQueryOf "u1")
             (World.db (deleteCustomer "c1" None None exampleWorld).2))
          (World.app exampleWorld)))
  = ["o2"]
  ∧ World.app (deleteCustomer "c1" None None exampleWorld).2 = World.app exampleWorld.
Proof.
  split; [vm_compute; reflexivity|].
  exact (proj1 (deleteCustomer_reaches_mirror codeUnitCompare "c1" exampleWorld u1
                  eq_refl)).
Defined.

(** X8. Adding a customer and deleting it again gives back the store as it
    was, when the id the store chose was free and no order of the user
    already refers to it. *)
Theorem addCustomer_deleteCustomer customer newId now w user :
  exposed w = Some user →
  Store.customers (World.db w) !! newId = None →
  (∀ k o, Store.daily_orders (World.db w) !! k = Some o →
          ¬ ordersOf (AppUser.id user) newId o) →
  World.db (deleteCustomer newId None None
              (addCustomer customer (Resolved newId) now w).2).2
  = World.db w.
Proof.
  intros Hu Hfree Hnone.
  assert (Hadd : addCustomer customer (Resolved newId) now w
                 = (Resolved tt,
                    World.setDb (putCustomer newId
                                   (customerDoc customer (AppUser.id user) now)
                                   (World.db w)) w)).
  { unfold exposed in Hu. unfold addCustomer. rewrite Hu. reflexivity. }
  rewrite Hadd. cbn [snd].
  destruct (deleteCustomer_resolved newId
              (World.setDb (putCustomer newId
                              (customerDoc customer (AppUser.id user) now)
                              (World.db w)) w) user Hu)
    as (w' & Hrun & _ & Hdb').
  rewrite Hrun. cbn [snd]. rewrite Hdb'.
  cbn. destruct (World.db w) as [pr pd cu od] eqn:Hdb. simpl in *. f_equal.
  - by apply delete_insert_id.
  - apply map_filter_id. intros k o Ho. simpl. by apply (Hnone k).
Qed.

Lemma addCustomer_deleteCustomer_witness :
  World.db (deleteCustomer "c9" None None
              (addCustomer exampleNewCustomer (Resolved "c9") 1700 exampleWorld).2).2
  = World.db exampleWorld.
Proof.
  apply (addCustomer_deleteCustomer exampleNewCustomer "c9" 1700 exampleWorld u1).
  - reflexivity.
  - reflexivity.
  - assert (H : map_Forall (λ _ o, DailyOrder.customer_id o ≠ "c9")
                            (Store.daily_orders (World.db exampleWorld)))
      by (apply (bool_decide_unpack _); vm_compute; reflexivity).
    intros k o Ho [_ Hc]. exact (H k o Ho Hc).
Defined.

(** X9. After a [deleteOrder] that resolved, the next snapshot of an
    owner's listener holds the orders it held before, less the one of that
    id; the other collections are as they were, deleting the same order
    again changes nothing, and a rejected call leaves the world as it
    was. *)
Theorem deleteOrder_exact localeCompare orderId uid s w :
  let w1 := (deleteOrder orderId (Resolved tt) w).2 in
  let mirror (db : Store.t) :=
    State.orders (onOrdersSnapshot localeCompare (selectOrders (ordersQueryOf uid) db) s) in
  (∀ o, o ∈ mirror (World.db w1) ↔ o ∈ mirror (World.db w) ∧ id o ≠ orderId)
  ∧ Store.products (World.db w1) = Store.products (World.db w)
  ∧ Store.customers (World.db w1) = Store.customers (World.db w)
  ∧ Store.profiles (World.db w1) = Store.profiles (World.db w)
  ∧ World.db (deleteOrder orderId (Resolved tt) w1).2 = World.db w1
  ∧ ∀ e, deleteOrder orderId (Rejected e) w = (Rejected e, w).
Proof.
  intros w1 mirror. subst w1 mirror. unfold deleteOrder, awaiting.
  cbn [snd World.db World.setDb].
  change (deleteDoc (World.db w) (doc "daily_orders" orderId))
    with {| Store.profiles := Store.profiles (World.db w);
            Store.products := Store.products (World.db w);
            Store.customers := Store.customers (World.db w);
            Store.daily_orders := delete orderId (Store.daily_orders (World.db w)) |}.
  split; [|repeat split].
  - intros o. rewrite !elem_of_delivered. cbn [Store.daily_orders].
    rewrite lookup_delete_Some. split.
    + intros [[Hne Hl] Hown]. done.
    + intros [[Hl Hown] Hne]. done.
  - unfold deleteDoc. simpl. f_equal. apply delete_id, lookup_delete_eq.
Qed.

(** X10. Deleting a product touches no order: whatever the outcome of the
    call, the owner's next orders snapshot, and with it the dashboard's
    totals and product summary, are what they would have been, line items
    of the deleted product included. *)
Theorem deleteProduct_keeps_orders localeCompare productId outcome uid today s w :
  let w1 := (deleteProduct productId outcome w).2 in
  let mirror (db : Store.t) :=
    State.orders (onOrdersSnapshot localeCompare (selectOrders (ordersQueryOf uid) db) s) in
  mirror (World.db w1) = mirror (World.db w)
  ∧ Dashboard.productSummary today (mirror (World.db w1))
    = Dashboard.productSummary today (mirror (World.db w))
  ∧ Dashboard.totalAmountToday today (mirror (World.db w1))
    = Dashboard.totalAmountToday today (mirror (World.db w))
  ∧ (outcome = Resolved tt → Store.products (World.db w1) !! productId = None).
Proof.
  intros w1 mirror.
  assert (Hsame : Store.daily_orders (World.db w1) = Store.daily_orders (World.db w)).
  { subst w1. unfold deleteProduct, awaiting. by destruct outcome. }
  assert (Hm : mirror (World.db w1) = mirror (World.db w)).
  { subst mirror. cbv beta. unfold selectOrders. by rewrite Hsame. }
  rewrite Hm. repeat split.
  intros ->. subst w1. unfold deleteProduct, awaiting. simpl.
  apply lookup_delete_eq.
Qed.

(** X11. With no user, [addProduct], [addCustomer], [addOrder] and
    [deleteCustomer] reject with [User not authenticated] before any call
    to the store: the outcome the call would have had does not matter and
    the world is as it was. *)
Theorem writes_need_user w :
  exposed w = None →
  (∀ product addDoc now, addProduct product addDoc now w = (Rejected notAuthenticated, w))
  ∧ (∀ customer addDoc now,
       addCustomer customer addDoc now w = (Rejected notAuthenticated, w))
  ∧ (∀ order items addDoc now,
       addOrder order items addDoc now w = (Rejected notAuthenticated, w))
  ∧ (∀ customerId getDocs_fault commit_fault,
       deleteCustomer customerId getDocs_fault commit_fault w
       = (Rejected notAuthenticated, w)).
Proof.
  unfold exposed, addProduct, addCustomer, addOrder, deleteCustomer.
  intros ->. repeat split.
Qed.

Lemma writes_need_user_witness :
  addOrder exampleNewOrder [] (Resolved "o9") 1700 (World.initial emptyStore)
  = (Rejected notAuthenticated, World.initial emptyStore).
Proof.
  destruct (writes_need_user (World.initial emptyStore) eq_refl) as (_ & _ & H & _).
  apply H.
Defined.

(** ** The sign-in gate *)

Lemma dataEffect_exposed w : exposed (dataEffect w) = exposed w.
Proof.
  unfold dataEffect, exposed. cbn.
  destruct (State.user (World.app w)) eqn:E; cbn; by rewrite ?E.
Qed.

Lemma updatePassword_exposed password outcome w :
  exposed (updatePassword password outcome w).2 = exposed w.
Proof.
  unfold updatePassword. run_async. destruct (World.currentUser w); [|reflexivity].
  unfold awaiting. by destruct outcome.
Qed.

Lemma addProduct_exposed product addDoc now w :
  exposed (addProduct product addDoc now w).2 = exposed w.
Proof.
  unfold addProduct, throw, bind, awaiting, resolve.
  destruct (State.user (World.app w)); [|reflexivity]. by destruct addDoc.
Qed.

Lemma addCustomer_exposed customer addDoc now w :
  exposed (addCustomer customer addDoc now w).2 = exposed w.
Proof.
  unfold addCustomer, throw, bind, awaiting, resolve.
  destruct (State.user (World.app w)); [|reflexivity]. by destruct addDoc.
Qed.

Lemma addOrder_exposed order items addDoc now w :
  exposed (addOrder order items addDoc now w).2 = exposed w.
Proof.
  unfold addOrder, throw, bind, awaiting, resolve.
  destruct (State.user (World.app w)); [|reflexivity]. by destruct addDoc.
Qed.

Lemma deleteCustomer_exposed customerId f g w :
  exposed (deleteCustomer customerId f g w).2 = exposed w.
Proof.
  unfold deleteCustomer, throw, bind, commit, await.
  destruct (State.user (World.app w)); [|reflexivity].
  destruct f; [reflexivity|]. by destruct g.
Qed.

Lemma act_exposed localeCompare w a u :
  exposed (act localeCompare w a) = Some u →
  exposed w = Some u
  ∨ ∃ fu fault, a = Session (AuthStateChanged (Some fu) fault)
                ∧ FirebaseUser.emailVerified fu = true
                ∧ AppUser.id u = FirebaseUser.uid fu.
Proof.
  destruct a as [e| | | | | | | |password outcome|product addDoc now
                |customer addDoc now|order items addDoc now|productId outcome
                |orderId outcome|customerId f g]; cbn [act];
    try (intros ?; by left).
  - destruct e as [firebaseUser fault|email password signIn signOut
                  |email username password c v p o now|signOut]; cbn [step].
    + intros [H|(fu & -> & Hv & Hid)]%authStateChanged_exposed; [by left|].
      right. by exists fu, fault.
    + rewrite login_exposed. intros ?; by left.
    + rewrite register_exposed. intros ?; by left.
    + destruct (logout_exposed signOut w) as [-> | ->];
        [intros ?; by left|discriminate].
  - rewrite dataEffect_exposed. intros ?; by left.
  - rewrite updatePassword_exposed. intros ?; by left.
  - rewrite addProduct_exposed. intros ?; by left.
  - rewrite addCustomer_exposed. intros ?; by left.
  - rewrite addOrder_exposed. intros ?; by left.
  - unfold deleteProduct, awaiting. destruct outcome; intros ?; by left.
  - unfold deleteOrder, awaiting. destruct outcome; intros ?; by left.
  - rewrite deleteCustomer_exposed. intros ?; by left.
Qed.

Lemma perform_exposed localeCompare actions w u :
  exposed w = None →
  exposed (perform localeCompare actions w) = Some u →
  ∃ fu fault, Session (AuthStateChanged (Some fu) fault) ∈ actions
              ∧ FirebaseUser.emailVerified fu = true
              ∧ AppUser.id u = FirebaseUser.uid fu.
Proof.
  intros Hw. induction actions as [|a actions IH] using rev_ind.
  - simpl. rewrite Hw. discriminate.
  - unfold perform. rewrite foldl_app. cbn [foldl].
    intros [H|(fu & fault & -> & Hv & Hid)]%act_exposed.
    + destruct (IH H) as (fu & fault & Hin & Hv & Hid).
      exists fu, fault. split; [|auto]. apply elem_of_app. by left.
    + exists fu, fault. split; [|auto]. apply elem_of_app. right. by constructor.
Qed.

(** X12. Whatever happens to the component (listener calls of the
    provider, logins, registrations, logouts, password updates, the data
    effect, snapshots and errors of the three listeners, writes), a screen
    behind the sign-in gate (loading, error or the main routes) is shown
    only while a user is exposed, and that user is an identity the auth
    listener received with [emailVerified] true. *)
Theorem gate_needs_verified_identity localeCompare actions db0 :
  let w := perform localeCompare actions (World.initial db0) in
  signedIn (AppRoutes (World.app w)) →
  ∃ u fu fault,
    exposed w = Some u
    ∧ Session (AuthStateChanged (Some fu) fault) ∈ actions
    ∧ FirebaseUser.emailVerified fu = true
    ∧ AppUser.id u = FirebaseUser.uid fu.
Proof.
  intros w [Hauth Hout]. unfold AppRoutes in Hauth, Hout.
  destruct (State.authLoading (World.app w)); [done|].
  destruct (State.user (World.app w)) as [u|] eqn:Hu; [|done].
  destruct (perform_exposed localeCompare actions (World.initial db0) u eq_refl Hu)
    as (fu & fault & H).
  by exists u, fu, fault.
Qed.

Lemma gate_needs_verified_identity_witness :
  let actions :=
    [Session (AuthStateChanged (Some bob) None); DataEffect; OrdersSnapshot []] in
  AppRoutes (World.app (perform codeUnitCompare actions (World.initial emptyStore)))
  = MainRoutes
  ∧ ∃ u, exposed (perform codeUnitCompare actions (World.initial emptyStore)) = Some u
         ∧ AppUser.id u = "uid-bob".
Proof.
  intros actions. split; [reflexivity|].
  destruct (gate_needs_verified_identity codeUnitCompare actions emptyStore)
    as (u & fu & fault & Hu & _).
  - split; discriminate.
  - exists u. split; [exact Hu|]. injection Hu as <-. reflexivity.
Defined.

(** X13. An error of the products or customers listener does not end the
    loading screen; an error of the orders listener with a message ends it
    with the error screen, once a user is exposed. No snapshot clears an
    error: the error screen stays through every later snapshot, and only
    the data effect run for a user resets the error, putting the loading
    screen (or the authenticating one) in its place. *)
Theorem error_screen localeCompare s :
  (AppRoutes s = LoadingData →
   ∀ m, AppRoutes (onProductsError m s) = LoadingData
        ∧ AppRoutes (onCustomersError m s) = LoadingData)
  ∧ (∀ m, State.authLoading s = false → State.user s ≠ None → m ≠ "" →
          AppRoutes (onOrdersError m s) = ErrorScreen m)
  ∧ (∀ e, AppRoutes s = ErrorScreen e →
          ∀ pdocs cdocs odocs,
            AppRoutes (onProductsSnapshot pdocs s) = ErrorScreen e
            ∧ AppRoutes (onCustomersSnapshot cdocs s) = ErrorScreen e
            ∧ AppRoutes (onOrdersSnapshot localeCompare odocs s) = ErrorScreen e)
  ∧ (∀ w, World.app w = s → State.user s ≠ None →
          State.error (World.app (dataEffect w)) = None
          ∧ (AppRoutes (World.app (dataEffect w)) = LoadingData
             ∨ AppRoutes (World.app (dataEffect w)) = Authenticating)).
Proof.
  unfold AppRoutes. split; [|split; [|split]].
  - intros H m. simpl.
    destruct (State.authLoading s), (State.user s), (State.dataLoading s);
      try done.
    destruct (State.error s) as [e|]; [destruct (decide (e = ""))|]; done.
  - intros m Ha Hu Hm. simpl. rewrite Ha. destruct (State.user s); [|done].
    by rewrite decide_False.
  - intros e H pdocs cdocs odocs. simpl.
    destruct (State.authLoading s); [done|]. destruct (State.user s); [|done].
    destruct (State.dataLoading s); [done|]. done.
  - intros w <- Hu.
    destruct (State.user (World.app w)) as [u|] eqn:Eu; [|done].
    unfold dataEffect. cbn. rewrite Eu. cbn. rewrite Eu.
    split; [reflexivity|]. destruct (State.authLoading (World.app w)); auto.
Qed.

Lemma error_screen_witness :
  let s := State.setAuthLoading false (State.setUser (Some u1) State.initial) in
  AppRoutes (onOrdersError "permission-denied" s) = ErrorScreen "permission-denied"
  ∧ AppRoutes (onOrdersSnapshot codeUnitCompare []
                 (onOrdersError "permission-denied" s))
    = ErrorScreen "permission-denied".
Proof.
  intros s.
  destruct (error_screen codeUnitCompare s) as (_ & Herr & _).
  pose proof (Herr "permission-denied" eq_refl) as H1.
  destruct (error_screen codeUnitCompare (onOrdersError "permission-denied" s))
    as (_ & _ & Hkeep & _).
  split.
  - apply H1; discriminate.
  - apply (Hkeep "permission-denied"); [|exact []|exact []].
    apply H1; discriminate.
Defined.

(** ** Dashboard, the rest *)

Lemma todayOrders_none today (orders : list (WithId DailyOrder.t)) :
  (∀ o, o ∈ orders → DailyOrder.date (fields o) ≠ today) →
  Dashboard.todayOrders today orders = [].
Proof.
  intros H. unfold Dashboard.todayOrders.
  induction orders as [|o orders IH]; [reflexivity|].
  rewrite filter_cons_False by (apply H; left).
  apply IH. intros o' Ho'. apply H. by right.
Qed.

(** X14. On a day without orders (the list is empty, or all its orders
    bear other dates) the dashboard shows 0 for the amount, the collection
    and the pending sum, counts 0 orders and has an empty product
    summary. *)
Theorem dashboard_empty_day today (orders : list (WithId DailyOrder.t)) :
  (∀ o, o ∈ orders → DailyOrder.date (fields o) ≠ today) →
  Dashboard.totalAmountToday today orders = Js.int 0
  ∧ Dashboard.totalCollectionToday today orders = Js.int 0
  ∧ Dashboard.totalPendingToday today orders = Js.int 0
  ∧ length (Dashboard.todayOrders today orders) = 0%nat
  ∧ Dashboard.productSummary today orders = [].
Proof.
  intros H. apply todayOrders_none in H.
  unfold Dashboard.totalPendingToday, Dashboard.totalAmountToday,
    Dashboard.totalCollectionToday, Dashboard.productSummary, Dashboard.summarize.
  rewrite H. repeat split.
Qed.

Lemma dashboard_empty_day_witness :
  Dashboard.totalPendingToday "2024-02-02"
    [exampleOrder "o1" 100 80; exampleOrder "o2" 50 50] = Js.int 0
  ∧ Dashboard.productSummary "2024-02-02"
      [exampleOrder "o1" 100 80; exampleOrder "o2" 50 50] = [].
Proof.
  destruct (dashboard_empty_day "2024-02-02"
              [exampleOrder "o1" 100 80; exampleOrder "o2" 50 50])
    as (_ & _ & Hp & _ & Hs).
  - intros o Ho. apply list_elem_of_In in Ho. simpl in Ho.
    destruct Ho as [<-|[<-|[]]]; discriminate.
  - split; assumption.
Defined.

Lemma sumToday_ext f g today (orders : list (WithId DailyOrder.t)) :
  Forall (λ o, f (fields o) = g (fields o)) (Dashboard.todayOrders today orders) →
  sumToday f today orders = sumToday g today orders.
Proof.
  unfold Dashboard.todayOrders.
  induction orders as [|o orders IH]; [reflexivity|].
  cbn [sumToday]. destruct (decide (DailyOrder.date (fields o) = today)) as [Hd|Hd].
  - rewrite filter_cons_True by exact Hd. intros [Ho Hrest]%Forall_cons.
    rewrite Ho, (IH Hrest). reflexivity.
  - rewrite filter_cons_False by exact Hd. intros Hrest.
    rewrite (IH Hrest). reflexivity.
Qed.

(** X15. When every order of today holds a number as its total and has
    been paid in full ([amount_paid] equal to [total_amount]), the pending
    sum is exactly 0 and the collection equals the amount. *)
Theorem paid_in_full_nothing_pending today (orders : list (WithId DailyOrder.t)) :
  Forall (λ o, finite (DailyOrder.total_amount (fields o))
               ∧ DailyOrder.amount_paid (fields o) = DailyOrder.total_amount (fields o))
         (Dashboard.todayOrders today orders) →
  Dashboard.totalPendingToday today orders = Js.int 0
  ∧ Dashboard.totalCollectionToday today orders
    = Dashboard.totalAmountToday today orders.
Proof.
  intros H.
  assert (Hfin : Forall (λ o, finite (DailyOrder.total_amount (fields o)))
                        (Dashboard.todayOrders today orders))
    by (eapply Forall_impl; [exact H|]; by intros o [? _]).
  assert (Heq : sumToday (λ o, amount (DailyOrder.amount_paid o)) today orders
                = sumToday (λ o, amount (DailyOrder.total_amount o)) today orders).
  { apply sumToday_ext. eapply Forall_impl; [exact H|]. by intros o [_ ->]. }
  unfold Dashboard.totalPendingToday.
  rewrite (totalAmountToday_sum today orders Hfin), totalCollectionToday_sum, Heq.
  split; [|reflexivity]. unfold Js.sub, Js.int. simpl. do 2 f_equal. lia.
Qed.

Lemma paid_in_full_nothing_pending_witness :
  Dashboard.totalPendingToday "2024-01-01"
    [exampleOrder "o1" 100 100; exampleOrder "o2" 50 50] = Js.int 0.
Proof.
  apply (paid_in_full_nothing_pending "2024-01-01"
           [exampleOrder "o1" 100 100; exampleOrder "o2" 50 50]).
  vm_compute. repeat constructor; eexists; reflexivity.
Defined.

Lemma productSummary_nonempty today orders :
  (0 <? length (Dashboard.productSummary today orders))%nat = true
  ↔ ∃ name, named name (todayItems today orders) ∧ JsObject.inherited name = false.
Proof.
  rewrite Nat.ltb_lt. split.
  - destruct (Dashboard.productSummary today orders) as [|[name q] rest] eqn:Hs;
      [simpl; lia|]. intros _.
    assert (Hin : (name, q) ∈ Dashboard.productSummary today orders)
      by (rewrite Hs; left).
    apply productSummary_entries in Hin as (Hinh & Hnamed & _). eauto.
  - intros (name & Hnamed & Hinh).
    assert (Hin : (name, quantityOf name (todayItems today orders))
                  ∈ Dashboard.productSummary today orders)
      by (by apply productSummary_entries).
    destruct (Dashboard.productSummary today orders);
      [by apply elem_of_nil in Hin|simpl; lia].
Qed.

(** X16. Under the statistics the dashboard shows the product summary
    exactly when the data is loaded and some line item of today bears a
    name the summary can hold (one that an object literal does not
    inherit). [No Orders Today] is shown alone, never beside the guide or
    the summary, and once the data is loaded the area is not empty. *)
Theorem dashboard_panels today s :
  (ProductSummary ∈ panels today s
   ↔ State.dataLoading s = false
     ∧ ∃ name, named name (todayItems today (State.orders s))
               ∧ JsObject.inherited name = false)
  ∧ (NoOrdersToday ∈ panels today s → panels today s = [NoOrdersToday])
  ∧ (State.dataLoading s = false → panels today s ≠ []).
Proof.
  unfold panels. rewrite <- productSummary_nonempty.
  destruct (State.dataLoading s).
  { split; [|split]; [split| |]; try done.
    - by intros ?%elem_of_nil.
    - by intros [? _].
    - by intros ?%elem_of_nil. }
  destruct (showGettingStarted s),
    (0 <? length (Dashboard.productSummary today (State.orders s)))%nat;
    simpl; (split; [|split]; [split| |]); try done;
    try (intros H; apply list_elem_of_In in H; simpl in H; intuition congruence);
    try (by intros [_ ?]); try (intros _; split; [done|]; repeat constructor);
    intros _; apply list_elem_of_In; simpl; auto.
Qed.

(** ** What the component writes and listens to *)

Ltac run_write :=
  unfold updatePassword, addProduct, addCustomer, addOrder, deleteProduct,
    deleteOrder, deleteCustomer, commit, awaiting;
  run_async.

Lemma act_orders localeCompare w a k o :
  Store.daily_orders (World.db (act localeCompare w a)) !! k = Some o →
  Store.daily_orders (World.db w) !! k = Some o
  ∨ ∃ u, exposed w = Some u ∧ DailyOrder.user_id o = AppUser.id u.
Proof.
  destruct a as [e| | | | | | | |password outcome|product addDoc now
                |customer addDoc now|order items addDoc now|productId outcome
                |orderId outcome|customerId f g]; cbn [act];
    try (intros ?; by left).
  - destruct e as [firebaseUser fault|email password signIn signOut
                  |email username password c v p q now|signOut]; cbn [step].
    + run_async. destruct firebaseUser as [fu|]; simpl; [|by left].
      destruct (FirebaseUser.emailVerified fu); simpl; [|by left].
      destruct fault; by left.
    + run_async. destruct signIn as [fu|]; simpl; [|by left].
      destruct (FirebaseUser.emailVerified fu); simpl; [by left|].
      destruct signOut; by left.
    + run_async. destruct c as [fu|]; simpl; [|by left].
      destruct v; simpl; [|by left]. destruct p; simpl; [|by left].
      destruct q; by left.
    + run_async. destruct signOut; by left.
  - unfold dataEffect. simpl. destruct (State.user (World.app w)); by left.
  - run_write. destruct (World.currentUser w); simpl; [|by left].
    destruct outcome; by left.
  - run_write. destruct (State.user (World.app w)); simpl; [|by left].
    destruct addDoc; by left.
  - run_write. destruct (State.user (World.app w)); simpl; [|by left].
    destruct addDoc; by left.
  - run_write. destruct (State.user (World.app w)) as [u|] eqn:Hu; simpl; [|by left].
    destruct addDoc as [newId|]; simpl; [|by left].
    destruct (decide (newId = k)) as [->|Hne].
    + rewrite lookup_insert_eq. intros [= <-]. right. by exists u.
    + rewrite lookup_insert_ne by done. by left.
  - run_write. destruct outcome; by left.
  - run_write. destruct outcome; simpl; [|by left].
    intros [_ ?]%lookup_delete_Some. by left.
  - destruct (State.user (World.app w)) as [u|] eqn:Hu.
    + destruct f as [e|].
      { run_write. rewrite Hu. by left. }
      destruct g as [e|].
      { run_write. rewrite Hu. by left. }
      destruct (deleteCustomer_resolved customerId w u Hu) as (w' & Hrun & _ & Hdb).
      rewrite Hrun. cbn [snd]. rewrite Hdb. cbn [Store.daily_orders].
      intros [? _]%map_lookup_filter_Some. by left.
    + run_write. rewrite Hu. by left.
Qed.
